(** * task-assistant-core: a shallow embedding of the triage engine

    The development follows the TypeScript sources module by module:
    - [JsString]          the string primitives the engine relies on
                          ([toLowerCase], [includes], template literals);
    - [JsValue]           loosely typed documents (what [yaml.load] yields);
    - [Types]             [src/types.ts];
    - [Errors]            [errors.ts];
    - [IssueClassifier]   [src/issueClassifier.ts];
    - [MilestoneRules]    [milestoneRules.ts];
    - [Config]            [src/config.ts];
    - [Effects]           remote calls as a logged request/response monad;
    - [MilestoneManager]  [src/milestoneManager.ts];
    - [Index]             [src/index.ts] (the [run] entry point).

    Definitions come first; every lemma and theorem is stated afterwards. *)

From Stdlib Require Import String Ascii List Bool ZArith Lia.
From Stdlib Require Import DecimalString.
Import ListNotations.
Local Open Scope list_scope.
Local Open Scope string_scope.

(* ===================================================================== *)
(** * Strings *)
(* ===================================================================== *)

Module JsString.

(** Strings are byte strings; case mapping is the ASCII one
    (['A'..'Z'] to ['a'..'z']), every other byte is left alone: it is the
    mapping of the code on ASCII text ([ModelScope.is_ascii]). *)
Definition lower_ascii (c : ascii) : ascii :=
  let n := nat_of_ascii c in
  if (65 <=? n)%nat && (n <=? 90)%nat then ascii_of_nat (n + 32) else c.

Definition upper_ascii (c : ascii) : ascii :=
  let n := nat_of_ascii c in
  if (97 <=? n)%nat && (n <=? 122)%nat then ascii_of_nat (n - 32) else c.

Fixpoint map_chars (f : ascii -> ascii) (s : string) : string :=
  match s with
  | EmptyString => EmptyString
  | String c rest => String (f c) (map_chars f rest)
  end.

(** [s.toLowerCase()] and [s.toUpperCase()]. *)
Definition toLowerCase (s : string) : string := map_chars lower_ascii s.
Definition toUpperCase (s : string) : string := map_chars upper_ascii s.

(** [s.startsWith(p)]. *)
Fixpoint startsWith (s p : string) {struct p} : bool :=
  match p with
  | EmptyString => true
  | String c p' =>
      match s with
      | EmptyString => false
      | String d s' => Ascii.eqb c d && startsWith s' p'
      end
  end.

(** [s.includes(sub)]: [sub] occurs somewhere in [s]. *)
Fixpoint includes (s sub : string) : bool :=
  if startsWith s sub then true
  else match s with
       | EmptyString => false
       | String _ rest => includes rest sub
       end.

(** Truthiness of a string: only the empty string is falsy. *)
Definition truthy (s : string) : bool :=
  match s with EmptyString => false | String _ _ => true end.

(** Truthiness of a [string | null]. *)
Definition truthy_opt (s : option string) : bool :=
  match s with Some s => truthy s | None => false end.

(** Specification side: [p] occurs in [l] as a contiguous run.  The
    code's [includes] is shown to decide it ([includes_substring]). *)
Definition Substring (p l : string) : Prop :=
  exists pre post : string, l = pre ++ p ++ post.

(** Specification side: [p] is a case-insensitive substring of [l]. *)
Definition CaseInsensitiveSubstring (p l : string) : Prop :=
  Substring (toLowerCase p) (toLowerCase l).

End JsString.

(* ===================================================================== *)
(** * Loosely typed values *)
(* ===================================================================== *)

Module JsValue.

#[local] Set Warnings "-register-all".

(** The values a parsed YAML/JSON document is made of.  An object is the
    list of its own enumerable properties in the order [Object.entries]
    yields them (for ordinary, non-index keys: insertion order).
    Numbers are kept as integers: only their truthiness is ever
    inspected. *)
Inductive JSValue : Type :=
| JUndefined
| JNull
| JBool (b : bool)
| JNum (n : Z)
| JStr (s : string)
| JArr (items : list JSValue)
| JObj (props : list (string * JSValue)).

(** [v == null]. *)
Definition is_nullish (v : JSValue) : bool :=
  match v with JUndefined | JNull => true | _ => false end.

(** [!!v]. *)
Definition truthy (v : JSValue) : bool :=
  match v with
  | JUndefined | JNull => false
  | JBool b => b
  | JNum n => negb (n =? 0)%Z
  | JStr s => JsString.truthy s
  | JArr _ | JObj _ => true
  end.

(** [typeof v === "object"] (true for [null], arrays and objects). *)
Definition typeof_object (v : JSValue) : bool :=
  match v with JNull | JArr _ | JObj _ => true | _ => false end.

Definition typeof_string (v : JSValue) : bool :=
  match v with JStr _ => true | _ => false end.

Definition typeof_boolean (v : JSValue) : bool :=
  match v with JBool _ => true | _ => false end.

Definition isArray (v : JSValue) : bool :=
  match v with JArr _ => true | _ => false end.

(** Property read on a list of own properties; a missing key reads as
    [undefined]. *)
Fixpoint lookup (k : string) (props : list (string * JSValue)) : JSValue :=
  match props with
  | [] => JUndefined
  | (k', v) :: rest => if String.eqb k k' then v else lookup k rest
  end.

Definition index_key (i : nat) : string :=
  NilZero.string_of_uint (Nat.to_uint i).

Fixpoint index_entries (i : nat) (items : list JSValue)
  : list (string * JSValue) :=
  match items with
  | [] => []
  | x :: rest => (index_key i, x) :: index_entries (S i) rest
  end.

(** [Object.entries(v)] for a value that passed a [typeof === "object"]
    test: the properties of an object, the indexed elements of an
    array. *)
Definition entries (v : JSValue) : list (string * JSValue) :=
  match v with
  | JObj props => props
  | JArr items => index_entries 0 items
  | _ => []
  end.

(** [v.k] for the configuration keys the engine reads (none of them is
    a built-in property of arrays, strings, numbers or booleans). *)
Definition get (v : JSValue) (k : string) : JSValue :=
  match v with
  | JObj props => lookup k props
  | _ => JUndefined
  end.

End JsValue.

(* ===================================================================== *)
(** * src/types.ts *)
(* ===================================================================== *)

Module Types.

Record IssueClassification : Type := mkClassification {
  track : option string;
  trackLabelToApply : option string;
  violations : list string;
  actions : list string
}.

Record TaskAssistantResult : Type := mkResult {
  r_track : option string;
  r_actions : list string;
  r_milestone : option string;
  r_telemetryFile : option string
}.

Record TelemetryRepositoryInfo : Type := mkRepoInfo {
  ri_owner : string;
  ri_repo : string
}.

Record TelemetryIssueInfo : Type := mkIssueInfo {
  ti_id : Z;
  ti_number : Z;
  ti_title : string;
  ti_state : string;
  ti_labels : list string;
  ti_milestone : option string;
  ti_created_at : string;
  ti_updated_at : string
}.

Record TelemetryPayload : Type := mkPayload {
  tp_version : Z;
  tp_event : string;
  tp_generated_at : string;
  tp_repository : TelemetryRepositoryInfo;
  tp_issue : option TelemetryIssueInfo;
  tp_classification : option IssueClassification;
  tp_actions : option (list string)
}.

End Types.

(* ===================================================================== *)
(** * The configuration object *)
(* ===================================================================== *)

Module ConfigTypes.

Record SelfHealing : Type := mkSelfHealing {
  enabled : option bool;
  fixMissingTrack : option bool;
  fixMissingMilestone : option bool
}.

Record Telemetry : Type := mkTelemetry {
  t_enabled : option bool;
  t_path : option string
}.

Record MilestoneRule : Type := mkMilestoneRule { title : string }.

(** One configuration object flows through the engine; each module
    declares the part of it that it reads ([tracks] in the classifier,
    [milestones] in the milestone rules, the four sections of
    [config.ts]).  Every field is optional ([None] is [undefined]).  A
    [Record<string, T>] is the list of its entries in enumeration
    order. *)
Record TaskAssistantConfig : Type := mkConfig {
  tracks : option (list (string * list string));
  milestone_rules : option (list (string * string));
  selfHealing : option SelfHealing;
  telemetry : option Telemetry;
  milestones : option (list (string * MilestoneRule))
}.

(** The object literal [{}]. *)
Definition empty_config : TaskAssistantConfig :=
  mkConfig None None None None None.

End ConfigTypes.

(* ===================================================================== *)
(** * src/issueClassifier.ts *)
(* ===================================================================== *)

Module IssueClassifier.
Import Types ConfigTypes.

(** [patterns.some(pattern => normalizedLabels.some(label =>
      label.includes(pattern.toLowerCase())))]. *)
Definition matches (normalizedLabels patterns : list string) : bool :=
  existsb
    (fun pattern =>
       existsb
         (fun label => JsString.includes label (JsString.toLowerCase pattern))
         normalizedLabels)
    patterns.

(** The [for ... of Object.entries(tracks)] loop with its [break]. *)
Fixpoint detect (normalizedLabels : list string)
         (tracks : list (string * list string)) : option string :=
  match tracks with
  | [] => None
  | (trackName, patterns) :: rest =>
      if matches normalizedLabels patterns then Some trackName
      else detect normalizedLabels rest
  end.

Definition classifyIssue (config : TaskAssistantConfig)
           (labels : list string) : IssueClassification :=
  let tracks := match config.(tracks) with Some t => t | None => [] end in
  let normalizedLabels := map JsString.toLowerCase labels in
  let detectedTrack := detect normalizedLabels tracks in
  match detectedTrack with
  | Some name =>
      if JsString.truthy name then
        mkClassification (Some name) (Some ("track:" ++ name)) [] []
      else
        mkClassification None None ["no-track-matched"] []
  | None => mkClassification None None ["no-track-matched"] []
  end.

End IssueClassifier.

(* ===================================================================== *)
(** * errors.ts *)
(* ===================================================================== *)

Module Errors.
Import JsValue.

Inductive TaskAssistantErrorSeverity : Type :=
| Fatal | Recoverable | ConfigSeverity | GithubApi | Rule.

(** The string literal each member of the union type is. *)
Definition severity_tag (s : TaskAssistantErrorSeverity) : string :=
  match s with
  | Fatal => "fatal"
  | Recoverable => "recoverable"
  | ConfigSeverity => "config"
  | GithubApi => "github-api"
  | Rule => "rule"
  end.

(** A value of type [unknown], as a [catch] clause or a [cause] field
    holds it: a plain [Error], a [TaskAssistantError] (which extends
    [Error] and so has a [stack] of its own), or any other value
    ([UValue JUndefined] when nothing was given). *)
Inductive Unknown : Type :=
| UError (message stack : string)
| UTaskAssistantError (e : TaskAssistantError)
| UValue (v : JSValue)
with TaskAssistantError : Type :=
| mkTaskAssistantError
    (severity : TaskAssistantErrorSeverity)
    (message : string)
    (stack : string)
    (cause : Unknown)
    (details : option (list (string * JSValue))).

Definition severity (e : TaskAssistantError) : TaskAssistantErrorSeverity :=
  match e with mkTaskAssistantError s _ _ _ _ => s end.
Definition message (e : TaskAssistantError) : string :=
  match e with mkTaskAssistantError _ m _ _ _ => m end.
Definition stack (e : TaskAssistantError) : string :=
  match e with mkTaskAssistantError _ _ st _ _ => st end.
Definition cause (e : TaskAssistantError) : Unknown :=
  match e with mkTaskAssistantError _ _ _ c _ => c end.
Definition details (e : TaskAssistantError)
  : option (list (string * JSValue)) :=
  match e with mkTaskAssistantError _ _ _ _ d => d end.

Definition undefined : Unknown := UValue JUndefined.

(** [err instanceof Error], with the message and stack it then has. *)
Definition as_Error (u : Unknown) : option (string * string) :=
  match u with
  | UError m st => Some (m, st)
  | UTaskAssistantError e => Some (message e, stack e)
  | UValue _ => None
  end.

Record TaskAssistantErrorData : Type := mkErrorData {
  d_severity : TaskAssistantErrorSeverity;
  d_message : string;
  d_cause : Unknown;
  d_details : option (list (string * JSValue))
}.

(** [new TaskAssistantError(data)]; [captured] is the stack text the
    runtime records in the [Error] constructor. *)
Definition new_TaskAssistantError (captured : string)
           (data : TaskAssistantErrorData) : TaskAssistantError :=
  mkTaskAssistantError (d_severity data) (d_message data) captured
                       (d_cause data) (d_details data).

Definition newline : string := String (ascii_of_nat 10) "".

Section Display.
(** [JSON.stringify(details, null, 2)], a built-in. *)
Variable JSON_stringify : list (string * JSValue) -> string.

Definition toDisplay (this : TaskAssistantError) (debug : bool) : string :=
  let out :=
    "[" ++ JsString.toUpperCase (severity_tag (severity this)) ++ "] "
        ++ message this in
  let out :=
    match details this with
    | Some d => out ++ newline ++ "Details: " ++ JSON_stringify d
    | None => out
    end in
  let out :=
    if debug then
      match as_Error (cause this) with
      | Some (m, st) =>
          (out ++ newline ++ "Cause: " ++ m) ++ newline ++ "Stack: " ++ st
      | None => out
      end
    else out in
  out.
End Display.

Definition configError (captured : string) (message : string)
           (details : option (list (string * JSValue))) :=
  new_TaskAssistantError captured
    (mkErrorData ConfigSeverity message undefined details).

Definition githubApiError (captured : string) (message : string)
           (cause : Unknown) (details : option (list (string * JSValue))) :=
  new_TaskAssistantError captured
    (mkErrorData GithubApi message cause details).

Definition ruleError (captured : string) (message : string)
           (details : option (list (string * JSValue))) :=
  new_TaskAssistantError captured
    (mkErrorData Rule message undefined details).

Definition recoverableError (captured : string) (message : string)
           (details : option (list (string * JSValue))) :=
  new_TaskAssistantError captured
    (mkErrorData Recoverable message undefined details).

Definition fatalError (captured : string) (message : string)
           (cause : Unknown) (details : option (list (string * JSValue))) :=
  new_TaskAssistantError captured
    (mkErrorData Fatal message cause details).

End Errors.

(* ===================================================================== *)
(** * milestoneRules.ts *)
(* ===================================================================== *)

Module MilestoneRules.
Import ConfigTypes.

(** [record[key]] on a typed record. *)
Fixpoint lookup {V : Type} (key : string) (record : list (string * V))
  : option V :=
  match record with
  | [] => None
  | (k, v) :: rest => if String.eqb key k then Some v else lookup key rest
  end.

Definition inferMilestoneTitle (config : TaskAssistantConfig)
           (track : option string) : option string :=
  match track with
  | None => None
  | Some track =>
      if negb (JsString.truthy track) then None
      else
        let milestoneRules :=
          match config.(milestones) with Some m => m | None => [] end in
        match lookup track milestoneRules with
        | None => None
        | Some rule => Some rule.(title)
        end
  end.

End MilestoneRules.

(* ===================================================================== *)
(** * src/config.ts *)
(* ===================================================================== *)

(** Calls to the logger change no value the engine computes and are left
    out, except that [unknownKeys] lists the keys [warnUnknownKeys] warns
    about. *)
Module Config.
Import JsValue ConfigTypes.

Definition KNOWN_KEYS : list string :=
  ["tracks"; "milestone_rules"; "self_healing"; "telemetry"].

(** [key.replace(/-/g, "_")]. *)
Definition normalizeKey (key : string) : string :=
  JsString.map_chars
    (fun c => if Ascii.eqb c "-"%char then "_"%char else c) key.

Definition unknownKeys (doc : list (string * JSValue)) : list string :=
  filter (fun key => negb (existsb (String.eqb (normalizeKey key)) KNOWN_KEYS))
         (map fst doc).

(** [out[key] = value] on a list of own properties: an existing key
    keeps its position and takes the new value, a new key goes last.  This
    is the assignment for every key but ["__proto__"]; [ModelScope] tells
    the documents in which that key does not occur. *)
Fixpoint assign {V : Type} (key : string) (value : V)
         (out : list (string * V)) : list (string * V) :=
  match out with
  | [] => [(key, value)]
  | (k, v) :: rest =>
      if String.eqb key k then (key, value) :: rest
      else (k, v) :: assign key value rest
  end.

(** The elements of an array all of whose elements are strings. *)
Definition strings_of (items : list JSValue) : list string :=
  flat_map (fun p => match p with JStr s => [s] | _ => [] end) items.

Definition validateTracks (tracks : JSValue)
  : option (list (string * list string)) :=
  if is_nullish tracks then None
  else if negb (typeof_object tracks) || isArray tracks then None
  else
    Some (fold_left
            (fun out entry =>
               let '(track, patterns) := entry in
               match patterns with
               | JArr items =>
                   if existsb (fun p => negb (typeof_string p)) items
                   then out
                   else assign track (strings_of items) out
               | _ => out
               end)
            (entries tracks) []).

Definition validateMilestoneRules (m : JSValue)
  : option (list (string * string)) :=
  if is_nullish m then None
  else if negb (typeof_object m) || isArray m then None
  else
    Some (fold_left
            (fun out entry =>
               let '(track, title) := entry in
               match title with
               | JStr s => assign track s out
               | _ => out
               end)
            (entries m) []).

Definition validateSelfHealing (s : JSValue) : SelfHealing :=
  if negb (truthy s) then mkSelfHealing None None None
  else
    let enabled :=
      match get s "enabled" with
      | JBool b => Some b
      | _ => Some false
      end in
    let fixMissingTrack :=
      let v := get s "fix_missing_track" in
      if negb (is_nullish v) && negb (typeof_boolean v) then None
      else Some (match v with JBool b => b | _ => false end) in
    let fixMissingMilestone :=
      let v := get s "fix_missing_milestone" in
      if negb (is_nullish v) && negb (typeof_boolean v) then None
      else Some (match v with JBool b => b | _ => false end) in
    mkSelfHealing enabled fixMissingTrack fixMissingMilestone.

Definition validateTelemetry (t : JSValue) : Telemetry :=
  if negb (truthy t) then mkTelemetry (Some true) (Some "telemetry")
  else
    let enabled :=
      match get t "enabled" with
      | JBool b => Some b
      | _ => Some true
      end in
    let path :=
      let p := get t "path" in
      if truthy p && negb (typeof_string p) then Some "telemetry"
      else Some (match p with
                 | JStr s => if JsString.truthy s then s else "telemetry"
                 | _ => "telemetry"
                 end) in
    mkTelemetry enabled path.

(** What the file system and the YAML parser give for a path: no file,
    a read or parse that throws, or the parsed document. *)
Inductive FileState : Type :=
| Absent
| Unreadable (err : Errors.Unknown)
| Parsed (doc : JSValue).

(** The [normalized] object: the document under normalized keys (exact
    for documents without a key that normalizes to ["__proto__"], see
    [ModelScope]). *)
Definition normalize_keys (doc : JSValue) : list (string * JSValue) :=
  fold_left
    (fun normalized entry =>
       assign (normalizeKey (fst entry)) (snd entry) normalized)
    (entries doc) [].

Definition loadConfig (files : string -> FileState) (path : string)
  : TaskAssistantConfig :=
  match files path with
  | Absent => empty_config
  | Unreadable _ => empty_config
  | Parsed doc =>
      if negb (truthy doc) || negb (typeof_object doc) then empty_config
      else
        let normalized := normalize_keys doc in
        mkConfig
          (validateTracks (lookup "tracks" normalized))
          (validateMilestoneRules (lookup "milestone_rules" normalized))
          (Some (validateSelfHealing (lookup "self_healing" normalized)))
          (Some (validateTelemetry (lookup "telemetry" normalized)))
          None
  end.

End Config.

(* ===================================================================== *)
(** * Remote calls *)
(* ===================================================================== *)

Module Effects.
Import Types Errors.

(** The requests the engine sends to its collaborators. *)
Inductive Call : Type :=
| AddLabels (owner repo : string) (issue_number : Z) (labels : list string)
| ListMilestones (owner repo state : string)
| CreateMilestone (owner repo title : string)
| UpdateIssue (owner repo : string) (issue_number milestone : Z)
| WriteTelemetry (issue_number : Z) (payload : TelemetryPayload).

Record MilestoneData : Type := mkMilestoneData {
  number : Z;
  title : string
}.

(** How the outside answers each request ([inl] is a rejected promise
    or a thrown value), and the stack text the runtime attaches to a
    newly built error. *)
Record World : Type := mkWorld {
  addLabels_response :
    string -> string -> Z -> list string -> Unknown + unit;
  listMilestones_response : string -> string -> Unknown + list MilestoneData;
  createMilestone_response : string -> string -> string -> Unknown + Z;
  update_response : string -> string -> Z -> Z -> Unknown + unit;
  writeTelemetry_response : Z -> TelemetryPayload -> Unknown + option string;
  captured_stack : string
}.

(** A computation that may throw and that appends the requests it sends
    to a log; what was sent before a throw stays in the log. *)
Definition Eff (A : Type) : Type := list Call -> (Unknown + A) * list Call.

Definition ret {A : Type} (a : A) : Eff A := fun log => (inr a, log).

Definition bind {A B : Type} (m : Eff A) (f : A -> Eff B) : Eff B :=
  fun log =>
    match m log with
    | (inl err, log') => (inl err, log')
    | (inr a, log') => f a log'
    end.

Definition throw {A : Type} (err : Unknown) : Eff A :=
  fun log => (inl err, log).

Definition try_catch {A : Type} (m : Eff A) (handler : Unknown -> Eff A)
  : Eff A :=
  fun log =>
    match m log with
    | (inl err, log') => handler err log'
    | (inr a, log') => (inr a, log')
    end.

(** [await] of one request. *)
Definition request {A : Type} (c : Call) (response : Unknown + A) : Eff A :=
  fun log => (response, (log ++ [c])%list).

Definition is_failure {A : Type} (r : Unknown + A) : bool :=
  match r with inl _ => true | inr _ => false end.

(** Does the outside reject this request? *)
Definition call_fails (w : World) (c : Call) : bool :=
  match c with
  | AddLabels o r n ls => is_failure (addLabels_response w o r n ls)
  | ListMilestones o r _ => is_failure (listMilestones_response w o r)
  | CreateMilestone o r t => is_failure (createMilestone_response w o r t)
  | UpdateIssue o r n m => is_failure (update_response w o r n m)
  | WriteTelemetry n p => is_failure (writeTelemetry_response w n p)
  end.

(** The requests of the self-healing steps: everything but the telemetry
    write. *)
Definition is_remote (c : Call) : bool :=
  match c with WriteTelemetry _ _ => false | _ => true end.

Definition is_telemetry_write (c : Call) : bool :=
  match c with WriteTelemetry _ _ => true | _ => false end.

(** What a self-healing step adds to the log: remote requests only, all
    of them answered successfully when the step itself succeeds, and none
    at all unless [enabled_flag] is set. *)
Definition remote_extension {A : Type} (w : World) (enabled_flag : bool)
           (log : list Call) (r : (Unknown + A) * list Call) : Prop :=
  exists new,
    snd r = (log ++ new)%list /\
    Forall (fun c => is_remote c = true) new /\
    (is_failure (fst r) = false ->
     Forall (fun c => call_fails w c = false) new) /\
    (enabled_flag = false -> new = []).

End Effects.

Declare Scope eff_scope.
Delimit Scope eff_scope with eff.
Notation "x <- m ;; k" := (Effects.bind m (fun x => k))
  (at level 100, m at next level, right associativity) : eff_scope.
Notation "m ;;; k" := (Effects.bind m (fun _ => k))
  (at level 100, right associativity) : eff_scope.

(* ===================================================================== *)
(** * src/milestoneManager.ts *)
(* ===================================================================== *)

Module MilestoneManager.
Import Errors Effects.
Local Open Scope eff_scope.

Record RepoRef : Type := mkRepoRef { owner : string; repo : string }.

(** A number inside a template literal (issue and milestone numbers are
    integers). *)
Definition show (n : Z) : string := NilZero.string_of_int (Z.to_int n).

Definition listMilestones (w : World) (ref : RepoRef)
  : Eff (list MilestoneData) :=
  try_catch
    (request (ListMilestones ref.(owner) ref.(repo) "open")
             (listMilestones_response w ref.(owner) ref.(repo)))
    (fun err =>
       throw (UTaskAssistantError
                (githubApiError (captured_stack w)
                   ("Failed to list milestones for "
                      ++ ref.(owner) ++ "/" ++ ref.(repo))
                   err None))).

(** The [for (const m of milestones)] loop. *)
Fixpoint first_with_title (milestones : list MilestoneData) (t : string)
  : option Z :=
  match milestones with
  | [] => None
  | m :: rest =>
      if String.eqb m.(title) t then Some m.(number)
      else first_with_title rest t
  end.

Definition findMilestoneByTitle (w : World) (ref : RepoRef) (t : string)
  : Eff (option Z) :=
  milestones <- listMilestones w ref ;;
  ret (first_with_title milestones t).

Definition ensureMilestone (w : World) (ref : RepoRef) (t : string)
  : Eff Z :=
  existing <- findMilestoneByTitle w ref t ;;
  match existing with
  | Some n => ret n
  | None =>
      try_catch
        (request (CreateMilestone ref.(owner) ref.(repo) t)
                 (createMilestone_response w ref.(owner) ref.(repo) t))
        (fun err =>
           throw (UTaskAssistantError
                    (githubApiError (captured_stack w)
                       ("Failed to create milestone '" ++ t ++ "'")
                       err None)))
  end.

Definition attachMilestoneToIssue (w : World) (ref : RepoRef)
           (issueNumber milestoneNumber : Z) : Eff unit :=
  try_catch
    (request (UpdateIssue ref.(owner) ref.(repo) issueNumber milestoneNumber)
             (update_response w ref.(owner) ref.(repo)
                              issueNumber milestoneNumber))
    (fun err =>
       throw (UTaskAssistantError
                (githubApiError (captured_stack w)
                   ("Failed to attach milestone #" ++ show milestoneNumber
                      ++ " to issue #" ++ show issueNumber)
                   err None))).

End MilestoneManager.

(* ===================================================================== *)
(** * src/index.ts *)
(* ===================================================================== *)

Module Index.
Import Types ConfigTypes Errors Effects.
Local Open Scope eff_scope.

(** An element of [issue.labels]: a name, or an object with a [name]. *)
Inductive IssueLabel : Type :=
| LabelString (l : string)
| LabelObject (name : string).

Record IssueMilestone : Type := mkIssueMilestone { m_title : string }.

(** [ctx.payload.issue], as far as [run] reads it. *)
Record Issue : Type := mkIssue {
  id : Z;
  number : Z;
  title : string;
  state : string;
  labels : option (list IssueLabel);
  milestone : option IssueMilestone;
  created_at : string;
  updated_at : string
}.

(** Everything [run] reads from its surroundings. *)
Record Surroundings : Type := mkSurroundings {
  config_path_input : string;          (* core.getInput("config-path") *)
  files : string -> Config.FileState;  (* the file system, parsed *)
  payload_issue : option Issue;        (* gha.context.payload.issue *)
  repo_owner : string;                 (* gha.context.repo *)
  repo_name : string;
  ORCHESTRATOR_TELEMETRY_ENABLED : bool;  (* env *)
  now : string                         (* new Date().toISOString() *)
}.

(** How [run] ends: the early [return], [core.setOutput("result", ...)],
    or [core.setFailed(...)] with [process.exitCode = 1]. *)
Inductive Outcome : Type :=
| Returned
| Output (result : TaskAssistantResult)
| SetFailed (message : string).

Definition label_name (l : IssueLabel) : string :=
  match l with LabelString s => s | LabelObject n => n end.

(** [(issue.labels || []).map(...)]. *)
Definition labels_of (issue : Issue) : list string :=
  map label_name (match issue.(labels) with Some ls => ls | None => [] end).

(** [issue.milestone?.title ?? null]. *)
Definition current_milestone_title (issue : Issue) : option string :=
  match issue.(milestone) with
  | Some m => Some m.(m_title)
  | None => None
  end.

Definition truthy_flag (b : option bool) : bool :=
  match b with Some true => true | _ => false end.

(** [config.selfHealing ?? { enabled: false, ... }]. *)
Definition selfHealing_of (config : TaskAssistantConfig) : SelfHealing :=
  match config.(selfHealing) with
  | Some s => s
  | None => mkSelfHealing (Some false) (Some false) (Some false)
  end.

(** [classification.actions.push(action)]. *)
Definition push_action (c : IssueClassification) (action : string)
  : IssueClassification :=
  mkClassification c.(track) c.(trackLabelToApply) c.(violations)
                   (c.(actions) ++ [action])%list.

Definition opt_string_eqb (a b : option string) : bool :=
  match a, b with
  | Some x, Some y => String.eqb x y
  | None, None => true
  | _, _ => false
  end.

(** Step 2a: fix a missing track label. *)
Definition fix_track_label (w : World) (config : TaskAssistantConfig)
           (owner repo : string) (issue : Issue)
           (classification : IssueClassification)
  : Eff IssueClassification :=
  let selfHealing := selfHealing_of config in
  match classification.(trackLabelToApply) with
  | Some label =>
      if truthy_flag selfHealing.(enabled)
         && truthy_flag selfHealing.(fixMissingTrack)
         && JsString.truthy label
      then
        request (AddLabels owner repo issue.(number) [label])
                (addLabels_response w owner repo issue.(number) [label]) ;;;
        ret (push_action classification ("apply-track-label:" ++ label))
      else ret classification
  | None => ret classification
  end.

(** Step 2b: milestone enforcement; yields the classification and
    [finalMilestoneTitle]. *)
Definition enforce_milestone (w : World) (config : TaskAssistantConfig)
           (owner repo : string) (issue : Issue)
           (classification : IssueClassification)
  : Eff (IssueClassification * option string) :=
  let selfHealing := selfHealing_of config in
  let finalMilestoneTitle := current_milestone_title issue in
  if truthy_flag selfHealing.(enabled)
     && truthy_flag selfHealing.(fixMissingMilestone)
  then
    let desiredMilestoneTitle :=
      MilestoneRules.inferMilestoneTitle config classification.(track) in
    match desiredMilestoneTitle with
    | Some desired =>
        if JsString.truthy desired
           && negb (opt_string_eqb desiredMilestoneTitle finalMilestoneTitle)
        then
          milestoneNumber <-
            MilestoneManager.ensureMilestone
              w (MilestoneManager.mkRepoRef owner repo) desired ;;
          MilestoneManager.attachMilestoneToIssue
            w (MilestoneManager.mkRepoRef owner repo)
            issue.(number) milestoneNumber ;;;
          ret (push_action classification ("set-milestone:" ++ desired),
               Some desired)
        else ret (classification, finalMilestoneTitle)
    | None => ret (classification, finalMilestoneTitle)
    end
  else ret (classification, finalMilestoneTitle).

(** Step 2 as a whole: what the specification calls the orchestrator. *)
Definition selfHeal (w : World) (config : TaskAssistantConfig)
           (owner repo : string) (issue : Issue)
           (classification : IssueClassification)
  : Eff (IssueClassification * option string) :=
  classification <- fix_track_label w config owner repo issue classification ;;
  enforce_milestone w config owner repo issue classification.

Definition telemetry_payload (s : Surroundings) (issue : Issue)
           (classification : IssueClassification)
           (finalMilestoneTitle : option string) : TelemetryPayload :=
  mkPayload 1 "issue_event" s.(now)
    (mkRepoInfo s.(repo_owner) s.(repo_name))
    (Some (mkIssueInfo issue.(id) issue.(number) issue.(title) issue.(state)
                       (labels_of issue) finalMilestoneTitle
                       issue.(created_at) issue.(updated_at)))
    (Some classification)
    (Some classification.(actions)).

(** Step 3: telemetry; yields [telemetryFile]. *)
Definition write_telemetry (w : World) (s : Surroundings)
           (config : TaskAssistantConfig) (issue : Issue)
           (classification : IssueClassification)
           (finalMilestoneTitle : option string) : Eff (option string) :=
  let telemetryEnabled :=
    match config.(telemetry) with
    | Some t => match t.(t_enabled) with Some b => b | None => true end
    | None => true
    end && s.(ORCHESTRATOR_TELEMETRY_ENABLED) in
  if telemetryEnabled then
    let payload :=
      telemetry_payload s issue classification finalMilestoneTitle in
    writtenPath <-
      request (WriteTelemetry issue.(number) payload)
              (writeTelemetry_response w issue.(number) payload) ;;
    ret (if JsString.truthy_opt writtenPath then writtenPath else None)
  else ret None.

(** The [try] block of [run] from the classification on, for a given
    configuration; [None] is the early [return]. *)
Definition process (w : World) (s : Surroundings)
           (config : TaskAssistantConfig)
  : Eff (option TaskAssistantResult) :=
  match s.(payload_issue) with
  | None => ret None
  | Some issue =>
      let classification :=
        IssueClassifier.classifyIssue config (labels_of issue) in
      healed <- selfHeal w config s.(repo_owner) s.(repo_name)
                         issue classification ;;
      let '(classification, finalMilestoneTitle) := healed in
      telemetryFile <-
        write_telemetry w s config issue classification
                        finalMilestoneTitle ;;
      ret (Some (mkResult classification.(track) classification.(actions)
                          finalMilestoneTitle telemetryFile))
  end.

Definition config_path (s : Surroundings) : string :=
  if JsString.truthy s.(config_path_input) then s.(config_path_input)
  else ".github/orchestrator.yml".

(** [run]: the outcome and the requests sent, in order. *)
Definition run (w : World) (s : Surroundings) : Outcome * list Call :=
  let config := Config.loadConfig s.(files) (config_path s) in
  match process w s config [] with
  | (inr None, log) => (Returned, log)
  | (inr (Some result), log) => (Output result, log)
  | (inl err, log) =>
      (match as_Error err with
       | Some (message, _) => SetFailed ("❌ Orchestrator error: " ++ message)
       | None => SetFailed "❌ Orchestrator error: unknown error"
       end, log)
  end.

End Index.

(* ===================================================================== *)
(** * Fixtures: the end-to-end scenario A of the specification *)
(* ===================================================================== *)

Module ScenarioA.
Import JsValue Types ConfigTypes Errors Effects Index.

(** The configuration document, key for key as the scenario writes it. *)
Definition document : JSValue :=
  JObj [("tracks", JObj [("bug", JArr [JStr "bug"])]);
        ("milestoneRules", JObj [("bug", JStr "Bugfix Sprint")]);
        ("selfHealing",
         JObj [("enabled", JBool true);
               ("fixMissingTrack", JBool true);
               ("fixMissingMilestone", JBool true)])].

(** The same content under the keys [config.ts] reads. *)
Definition snake_case_document : JSValue :=
  JObj [("tracks", JObj [("bug", JArr [JStr "bug"])]);
        ("milestone_rules", JObj [("bug", JStr "Bugfix Sprint")]);
        ("self_healing",
         JObj [("enabled", JBool true);
               ("fix_missing_track", JBool true);
               ("fix_missing_milestone", JBool true)])].

Definition issue : Issue :=
  mkIssue 9001 42 "Crash on save" "open"
          (Some [LabelString "needs-triage"; LabelString "Bug"])
          None "2025-01-01T00:00:00Z" "2025-01-02T00:00:00Z".

Definition surroundings (doc : JSValue) : Surroundings :=
  mkSurroundings "" (fun _ => Config.Parsed doc) (Some issue)
                 "acme" "widgets" true "2025-01-03T00:00:00.000Z".

(** Every remote call succeeds; no milestone exists yet. *)
Definition all_succeed : World :=
  mkWorld (fun _ _ _ _ => inr tt)
          (fun _ _ => inr [])
          (fun _ _ _ => inr 7%Z)
          (fun _ _ _ _ => inr tt)
          (fun _ _ => inr (Some "telemetry/issue-42.json"))
          "at run (index.ts)".

(** The label request is rejected; everything else succeeds. *)
Definition labels_rejected : World :=
  mkWorld (fun _ _ _ _ => inl (UError "Bad credentials" "at addLabels"))
          (fun _ _ => inr [])
          (fun _ _ _ => inr 7%Z)
          (fun _ _ _ _ => inr tt)
          (fun _ _ => inr (Some "telemetry/issue-42.json"))
          "at run (index.ts)".

End ScenarioA.

(* ===================================================================== *)
(** * env.ts *)
(* ===================================================================== *)

Module Env.
Import JsValue.

Record TaskAssistantEnv : Type := mkEnv {
  GITHUB_TOKEN : option string;
  TASK_ASSISTANT_RUN_MODE : string;
  TASK_ASSISTANT_TELEMETRY_ENABLED : bool;
  TASK_ASSISTANT_TELEMETRY_ROOT : string;
  TASK_ASSISTANT_TRACK_CONFIG : option JSValue;
  TASK_ASSISTANT_MILESTONE_RULES : option JSValue;
  NODE_ENV : string
}.

(** [v ?? d] on a [string | undefined]. *)
Definition or_default (v : option string) (d : string) : string :=
  match v with Some s => s | None => d end.

(** [allowed.includes(s)]. *)
Definition one_of (allowed : list string) (s : string) : bool :=
  existsb (String.eqb s) allowed.

(** [lines.join(sep)]. *)
Fixpoint join (sep : string) (lines : list string) : string :=
  match lines with
  | [] => ""
  | [x] => x
  | x :: rest => x ++ sep ++ join sep rest
  end.

(** [errors.push(e)]. *)
Definition push (errors : list string) (e : string) : list string :=
  List.app errors [e].

Section LoadEnv.
(** [JSON.parse], a built-in ([None] when it throws), and [process.env]. *)
Variable JSON_parse : string -> option JSValue.
Variable process_env : string -> option string.

(** One optional JSON variable: the parsed value and the error list after
    the [try]/[catch]. *)
Definition parse_variable (name : string) (errors : list string)
  : option JSValue * list string :=
  match process_env name with
  | Some raw =>
      if JsString.truthy raw then
        match JSON_parse raw with
        | Some value => (Some value, errors)
        | None => (None, push errors (name ++ " is not valid JSON."))
        end
      else (None, errors)
  | None => (None, errors)
  end.

(** [loadEnv()]: [inl] is the message of the [Error] thrown. *)
Definition loadEnv : string + TaskAssistantEnv :=
  let errors : list string := [] in
  let RUN_MODE :=
    or_default (process_env "TASK_ASSISTANT_RUN_MODE") "action" in
  let errors :=
    if negb (one_of ["action"; "app"; "local"] RUN_MODE)
    then push errors ("Invalid TASK_ASSISTANT_RUN_MODE '" ++ RUN_MODE ++ "'. "
                        ++ "Allowed values: action | app | local")
    else errors in
  let TOKEN := process_env "GITHUB_TOKEN" in
  let errors :=
    if String.eqb RUN_MODE "action" && negb (JsString.truthy_opt TOKEN)
    then push errors ("Missing GITHUB_TOKEN. Required when "
                        ++ "TASK_ASSISTANT_RUN_MODE=action.")
    else errors in
  let TELEMETRY_ENABLED :=
    String.eqb
      (JsString.toLowerCase
         (or_default (process_env "TASK_ASSISTANT_TELEMETRY_ENABLED") "true"))
      "true" in
  let TELEMETRY_ROOT :=
    or_default (process_env "TASK_ASSISTANT_TELEMETRY_ROOT") "telemetry" in
  let '(TRACK_CONFIG, errors) :=
    parse_variable "TASK_ASSISTANT_TRACK_CONFIG" errors in
  let '(MILESTONE_RULES, errors) :=
    parse_variable "TASK_ASSISTANT_MILESTONE_RULES" errors in
  let NODE := or_default (process_env "NODE_ENV") "production" in
  let errors :=
    if negb (one_of ["production"; "development"; "test"] NODE)
    then push errors ("Invalid NODE_ENV '" ++ NODE
                        ++ "'. Must be production | development | test")
    else errors in
  match errors with
  | _ :: _ =>
      inl ("Environment validation failed:" ++ Errors.newline
             ++ join Errors.newline (map (fun e => "- " ++ e) errors))
  | [] =>
      inr (mkEnv TOKEN RUN_MODE TELEMETRY_ENABLED TELEMETRY_ROOT
                 TRACK_CONFIG MILESTONE_RULES NODE)
  end.

(** [getEnv()], with the module variable [cachedEnv] passed in and out. *)
Definition getEnv (cachedEnv : option TaskAssistantEnv)
  : (string + TaskAssistantEnv) * option TaskAssistantEnv :=
  match cachedEnv with
  | Some env => (inr env, Some env)
  | None =>
      match loadEnv with
      | inl message => (inl message, None)
      | inr env => (inr env, Some env)
      end
  end.

End LoadEnv.

End Env.

(* ===================================================================== *)
(** * How a log ends *)
(* ===================================================================== *)

Module Traces.
Import Errors Effects.

(** A step keeps the abort discipline when every request it adds to the log
    is answered successfully, except that a step that throws has its last
    request rejected. *)
Definition stops_at_failure {A : Type} (w : World) (log : list Call)
           (r : (Unknown + A) * list Call) : Prop :=
  exists new,
    snd r = (log ++ new)%list /\
    match fst r with
    | inr _ => Forall (fun c => call_fails w c = false) new
    | inl _ =>
        exists pre c,
          new = (pre ++ [c])%list /\
          Forall (fun c => call_fails w c = false) pre /\
          call_fails w c = true
    end.

(** The constant [telemetryEnabled] of [run]:
    [(config.telemetry?.enabled ?? true) && env.ORCHESTRATOR_TELEMETRY_ENABLED]. *)
Definition telemetryEnabled (config : ConfigTypes.TaskAssistantConfig)
           (s : Index.Surroundings) : bool :=
  match ConfigTypes.telemetry config with
  | Some t =>
      match ConfigTypes.t_enabled t with Some b => b | None => true end
  | None => true
  end && Index.ORCHESTRATOR_TELEMETRY_ENABLED s.

End Traces.

(* ===================================================================== *)
(** * Where the model of strings and objects is exact *)
(* ===================================================================== *)

Module ModelScope.
Import JsValue.

(** The case mapping of [JsString] is the one JavaScript applies to ASCII
    text; a string is ASCII when each of its bytes is below 128. *)
Fixpoint is_ascii (s : string) : bool :=
  match s with
  | EmptyString => true
  | String c rest => (nat_of_ascii c <? 128)%nat && is_ascii rest
  end.

(** An assignment [o[key] = value] creates or updates an own property for
    every key except ["__proto__"], which JavaScript routes to the
    prototype of [o].  [Config.assign] models the ordinary case; the two
    tests below tell when no assignment of [loadConfig] or of a validator
    meets the special key. *)
Definition normalizes_to_proto (props : list (string * JSValue)) : bool :=
  existsb (fun entry => String.eqb (Config.normalizeKey (fst entry)) "__proto__")
          props.

Definition names_proto (props : list (string * JSValue)) : bool :=
  existsb (fun entry => String.eqb (fst entry) "__proto__") props.

(** A document none of whose top-level keys normalizes to ["__proto__"] and
    whose [tracks] and [milestone_rules] sections have no such key. *)
Definition ordinary_document (doc : JSValue) : bool :=
  negb (normalizes_to_proto (entries doc))
  && negb (names_proto
             (entries (lookup "tracks" (Config.normalize_keys doc))))
  && negb (names_proto
             (entries (lookup "milestone_rules" (Config.normalize_keys doc)))).

End ModelScope.

(* ===================================================================== *)
(** * Facts about strings *)
(* ===================================================================== *)

Section StringFacts.
Import JsString.

Lemma startsWith_prefix (s p : string) :
  startsWith s p = true <-> exists post, s = p ++ post.
Proof.
  revert s; induction p as [|c p IH]; intros s; simpl.
  - split; [intros _; now exists s | reflexivity].
  - destruct s as [|d s]; simpl.
    + split; [discriminate | intros [post H]; discriminate].
    + rewrite andb_true_iff, Ascii.eqb_eq, IH. split.
      * intros [-> [post ->]]. now exists post.
      * intros [post H]. injection H as -> ->. split; [reflexivity | now exists post].
Qed.

Lemma includes_substring (s sub : string) :
  includes s sub = true <-> Substring sub s.
Proof.
  unfold Substring. induction s as [|d s IH]; simpl.
  - destruct (startsWith "" sub) eqn:E.
    + apply startsWith_prefix in E as [post E].
      split; [intros _; exists "", post; exact E | reflexivity].
    + split; [discriminate|].
      intros (pre & post & H).
      destruct pre; simpl in H; [|discriminate].
      assert (startsWith "" sub = true) as E'
          by (apply startsWith_prefix; now exists post).
      congruence.
  - destruct (startsWith (String d s) sub) eqn:E.
    + apply startsWith_prefix in E as [post E].
      split; [intros _; exists "", post; exact E | reflexivity].
    + rewrite IH. split.
      * intros (pre & post & ->). now exists (String d pre), post.
      * intros (pre & post & H). destruct pre as [|c pre]; simpl in H.
        -- assert (startsWith (String d s) sub = true) as E'
               by (apply startsWith_prefix; now exists post).
           congruence.
        -- injection H as _ ->. now exists pre, post.
Qed.

Lemma includes_empty_pattern (s : string) : includes s "" = true.
Proof. destruct s; reflexivity. Qed.

Lemma truthy_nonempty (s : string) : truthy s = true <-> s <> "".
Proof. destruct s; simpl; split; congruence. Qed.

End StringFacts.

(* ===================================================================== *)
(** * The track classifier *)
(* ===================================================================== *)

Section ClassifierFacts.
Import Types ConfigTypes IssueClassifier.

(** The boolean test of the loop body is the specification's "some
    pattern is a case-insensitive substring of some label". *)
Lemma matches_case_insensitive (labels patterns : list string) :
  matches (map JsString.toLowerCase labels) patterns = true <->
  exists P L, In P patterns /\ In L labels /\
              JsString.CaseInsensitiveSubstring P L.
Proof.
  unfold matches, JsString.CaseInsensitiveSubstring.
  rewrite existsb_exists. split.
  - intros (P & HP & H). apply existsb_exists in H as (l & Hl & H).
    apply in_map_iff in Hl as (L & <- & HL).
    apply includes_substring in H. now exists P, L.
  - intros (P & L & HP & HL & H). exists P. split; [exact HP|].
    apply existsb_exists. exists (JsString.toLowerCase L).
    split; [now apply in_map | now apply includes_substring].
Qed.

Lemma matches_no_patterns (normalizedLabels : list string) :
  matches normalizedLabels [] = false.
Proof. reflexivity. Qed.

Lemma matches_no_labels (patterns : list string) :
  matches [] patterns = false.
Proof.
  unfold matches. induction patterns as [|p ps IH]; simpl; auto.
Qed.

(** The loop stops at the first entry whose patterns match. *)
Lemma detect_first (nl : list string) before T pats after :
  (forall t ps, In (t, ps) before -> matches nl ps = false) ->
  matches nl pats = true ->
  detect nl (before ++ (T, pats) :: after)%list = Some T.
Proof.
  induction before as [|[t ps] before IH]; intros Hb Hm; simpl.
  - now rewrite Hm.
  - rewrite (Hb t ps (or_introl eq_refl)).
    apply IH; [|exact Hm]. intros t' ps' Hin. apply (Hb t' ps'). now right.
Qed.

(** Whatever the loop returns is a declared track with a matching,
    hence non-empty, pattern list. *)
Lemma detect_sound (nl : list string) tracks T :
  detect nl tracks = Some T ->
  exists ps, In (T, ps) tracks /\ matches nl ps = true /\ ps <> [].
Proof.
  induction tracks as [|[t ps] rest IH]; simpl; [discriminate|].
  destruct (matches nl ps) eqn:E.
  - intros [= ->]. exists ps. repeat split; auto.
    intros ->. discriminate.
  - intros H. destruct (IH H) as (ps' & Hin & Hm & Hne).
    exists ps'. auto.
Qed.

Lemma detect_none (nl : list string) tracks :
  (forall t ps, In (t, ps) tracks -> matches nl ps = false) ->
  detect nl tracks = None.
Proof.
  induction tracks as [|[t ps] rest IH]; intros H; simpl; [reflexivity|].
  rewrite (H t ps (or_introl eq_refl)). apply IH.
  intros t' ps' Hin. apply (H t' ps'). now right.
Qed.

(** The two shapes a classification can take. *)
Lemma classifyIssue_cases (config : TaskAssistantConfig) (labels : list string) :
  (exists T, T <> "" /\
     detect (map JsString.toLowerCase labels)
            (match tracks config with Some t => t | None => [] end) = Some T /\
     classifyIssue config labels =
       mkClassification (Some T) (Some ("track:" ++ T)) [] [])
  \/ classifyIssue config labels =
       mkClassification None None ["no-track-matched"] [].
Proof.
  unfold classifyIssue.
  destruct (detect _ _) as [T|] eqn:E; [|now right].
  destruct (JsString.truthy T) eqn:HT; [|now right].
  left. exists T. apply truthy_nonempty in HT. auto.
Qed.

Lemma classifyIssue_actions (config : TaskAssistantConfig)
      (labels : list string) :
  actions (classifyIssue config labels) = [].
Proof.
  destruct (classifyIssue_cases config labels) as [(T & _ & _ & ->)| ->];
    reflexivity.
Qed.

(** C4 (as amended).  When the first declared track having a pattern that
    is a case-insensitive substring of some label has a non-empty name,
    classification returns exactly that track, whatever later tracks
    would match, and [trackLabelToApply] is ["track:"] followed by the
    track name. *)
Theorem classifyIssue_first_match
    (config : TaskAssistantConfig) (labels : list string)
    (before after : list (string * list string))
    (T : string) (pats : list string) (P L : string) :
  tracks config = Some (before ++ (T, pats) :: after)%list ->
  (forall t ps p l, In (t, ps) before -> In p ps -> In l labels ->
                    ~ JsString.CaseInsensitiveSubstring p l) ->
  In P pats -> In L labels -> JsString.CaseInsensitiveSubstring P L ->
  T <> "" ->
  classifyIssue config labels =
    mkClassification (Some T) (Some ("track:" ++ T)) [] [].
Proof.
  intros Htr Hbefore HP HL HPL HT.
  unfold classifyIssue. rewrite Htr.
  rewrite detect_first.
  - apply truthy_nonempty in HT. now rewrite HT.
  - intros t ps Hin. destruct (matches _ ps) eqn:E; [|reflexivity].
    apply matches_case_insensitive in E as (p & l & Hp & Hl & Hpl).
    exfalso. exact (Hbefore t ps p l Hin Hp Hl Hpl).
  - apply matches_case_insensitive. now exists P, L.
Qed.

Lemma classifyIssue_first_match_witness :
  classifyIssue
    (mkConfig (Some [("docs", ["documentation"]); ("bug", ["bug"; "defect"]);
                     ("triage", ["needs-triage"])])
              None None None None)
    ["needs-triage"; "Bug"]
  = mkClassification (Some "bug") (Some "track:bug") [] [].
Proof.
  apply (classifyIssue_first_match _ _
           [("docs", ["documentation"])] [("triage", ["needs-triage"])]
           "bug" ["bug"; "defect"] "bug" "Bug").
  - reflexivity.
  - intros t ps p l [[= <- <-]|[]] [<-|[]] Hl Hsub.
    apply includes_substring in Hsub.
    destruct Hl as [<-|[<-|[]]]; vm_compute in Hsub; discriminate.
  - simpl; auto.
  - simpl; auto.
  - apply includes_substring. reflexivity.
  - discriminate.
Defined.

(** C4, as stated, fails for a track whose name is the empty string: the
    loop picks it, but the truthiness test that follows discards it. *)
Lemma classifyIssue_first_match_counterexample :
  ~ (forall (config : TaskAssistantConfig) (labels : list string)
            (T : string) (pats : list string)
            (rest : list (string * list string)) (P L : string),
        tracks config = Some ((T, pats) :: rest) ->
        In P pats -> In L labels ->
        JsString.CaseInsensitiveSubstring P L ->
        track (classifyIssue config labels) = Some T /\
        trackLabelToApply (classifyIssue config labels)
          = Some ("track:" ++ T)).
Proof.
  intros H.
  destruct (H (mkConfig (Some [("", ["bug"])]) None None None None)
              ["bug"] "" ["bug"] [] "bug" "bug") as [Ht _].
  - reflexivity.
  - simpl; auto.
  - simpl; auto.
  - apply includes_substring. reflexivity.
  - vm_compute in Ht. discriminate.
Qed.

(** C7.  With an empty or absent [tracks] mapping, every label list is
    classified with [track = null], a ["no-track-matched"] violation and
    [trackLabelToApply = null]. *)
Theorem classifyIssue_no_tracks
    (config : TaskAssistantConfig) (labels : list string) :
  tracks config = None \/ tracks config = Some [] ->
  track (classifyIssue config labels) = None /\
  In "no-track-matched" (violations (classifyIssue config labels)) /\
  trackLabelToApply (classifyIssue config labels) = None.
Proof.
  intros [H|H]; unfold classifyIssue; rewrite H; simpl; auto.
Qed.

Lemma classifyIssue_no_tracks_witness :
  (track (classifyIssue empty_config ["bug"; "Feature"]) = None /\
   In "no-track-matched"
      (violations (classifyIssue empty_config ["bug"; "Feature"])) /\
   trackLabelToApply (classifyIssue empty_config ["bug"; "Feature"]) = None)
  /\
  (track (classifyIssue (mkConfig (Some []) None None None None) ["bug"])
     = None /\
   In "no-track-matched"
      (violations
         (classifyIssue (mkConfig (Some []) None None None None) ["bug"])) /\
   trackLabelToApply
     (classifyIssue (mkConfig (Some []) None None None None) ["bug"]) = None).
Proof.
  split.
  - apply (classifyIssue_no_tracks empty_config ["bug"; "Feature"]).
    left; reflexivity.
  - apply (classifyIssue_no_tracks
             (mkConfig (Some []) None None None None) ["bug"]).
    right; reflexivity.
Defined.

(** C10.  Every classification has an empty [actions] list, a
    [trackLabelToApply] that is non-null exactly when [track] is, and
    [violations] equal to [["no-track-matched"]] when [track] is null and
    empty otherwise.  A track with no pattern never matches (so the
    returned track always has a non-empty pattern list), and an empty
    label list is always classified with [track = null], even when a
    pattern is the empty string. *)
Theorem classifyIssue_shape
    (config : TaskAssistantConfig) (labels : list string) :
  let c := classifyIssue config labels in
  actions c = [] /\
  (trackLabelToApply c <> None <-> track c <> None) /\
  (track c = None -> violations c = ["no-track-matched"]) /\
  (track c <> None -> violations c = []) /\
  (forall normalizedLabels, matches normalizedLabels [] = false) /\
  (forall T, track c = Some T ->
     exists ps, In (T, ps)
                   (match tracks config with Some t => t | None => [] end)
                /\ ps <> []) /\
  track (classifyIssue config []) = None.
Proof.
  intros c. subst c.
  assert (Hempty : track (classifyIssue config []) = None).
  { unfold classifyIssue. simpl.
    rewrite detect_none; [reflexivity|].
    intros t ps _. apply matches_no_labels. }
  destruct (classifyIssue_cases config labels)
    as [(T & HT & Hd & ->)| ->]; simpl.
  - repeat split; try congruence; auto.
    intros T' [= <-]. apply detect_sound in Hd as (ps & Hin & _ & Hne).
    now exists ps.
  - repeat split; try congruence; auto.
Qed.

End ClassifierFacts.

(* ===================================================================== *)
(** * The error taxonomy *)
(* ===================================================================== *)

Section ErrorFacts.
Import JsValue Errors.

Lemma append_assoc (a b c : string) : (a ++ b) ++ c = a ++ b ++ c.
Proof. induction a as [|x a IH]; simpl; [reflexivity | now rewrite IH]. Qed.

Lemma append_empty_r (a : string) : a ++ "" = a.
Proof. induction a as [|x a IH]; simpl; [reflexivity | now rewrite IH]. Qed.

(** The part of the display that does not depend on [debug]. *)
Lemma toDisplay_plain JSON_stringify (e : TaskAssistantError) :
  toDisplay JSON_stringify e false =
    "[" ++ JsString.toUpperCase (severity_tag (severity e)) ++ "] "
        ++ message e
        ++ match details e with
           | Some d => newline ++ "Details: " ++ JSON_stringify d
           | None => ""
           end.
Proof.
  unfold toDisplay. destruct (details e) as [d|].
  - now rewrite ?append_assoc.
  - now rewrite ?append_assoc, ?append_empty_r.
Qed.

(** Cause and stack are a suffix that only the debug display has. *)
Lemma toDisplay_debug JSON_stringify (e : TaskAssistantError) :
  toDisplay JSON_stringify e true =
    toDisplay JSON_stringify e false
      ++ match as_Error (cause e) with
         | Some (m, st) =>
             newline ++ "Cause: " ++ m ++ newline ++ "Stack: " ++ st
         | None => ""
         end.
Proof.
  unfold toDisplay. destruct (as_Error (cause e)) as [[m st]|].
  - now rewrite ?append_assoc.
  - now rewrite ?append_empty_r.
Qed.

(** C9.  Without debug the display is made of the severity, the message
    and the JSON rendering of the details only, so two errors that agree
    on these three (and differ in their cause, its stack or their own
    stack) are displayed identically; cause and stack show up only in the
    suffix that the debug display adds. *)
Theorem toDisplay_hides_cause JSON_stringify (e1 e2 : TaskAssistantError) :
  severity e1 = severity e2 ->
  message e1 = message e2 ->
  details e1 = details e2 ->
  toDisplay JSON_stringify e1 false = toDisplay JSON_stringify e2 false /\
  toDisplay JSON_stringify e1 false =
    "[" ++ JsString.toUpperCase (severity_tag (severity e1)) ++ "] "
        ++ message e1
        ++ match details e1 with
           | Some d => newline ++ "Details: " ++ JSON_stringify d
           | None => ""
           end /\
  toDisplay JSON_stringify e1 true =
    toDisplay JSON_stringify e1 false
      ++ match as_Error (cause e1) with
         | Some (m, st) =>
             newline ++ "Cause: " ++ m ++ newline ++ "Stack: " ++ st
         | None => ""
         end.
Proof.
  intros Hs Hm Hd. split; [|split].
  - rewrite !toDisplay_plain. now rewrite Hs, Hm, Hd.
  - apply toDisplay_plain.
  - apply toDisplay_debug.
Qed.

Lemma toDisplay_hides_cause_witness :
  let render := fun _ : list (string * JSValue) => "{}" in
  let e1 :=
    githubApiError "at listMilestones (milestoneManager.ts:33)"
      "Failed to list milestones for acme/widgets"
      (UError "connect ETIMEDOUT" "at TCP.onStreamRead (net.js:1)")
      (Some [("status", JNum 504)]) in
  let e2 :=
    githubApiError "at ensureMilestone (milestoneManager.ts:79)"
      "Failed to list milestones for acme/widgets"
      (UValue (JStr "secret-token rejected"))
      (Some [("status", JNum 504)]) in
  toDisplay render e1 false = toDisplay render e2 false /\
  toDisplay render e1 false =
    "[GITHUB-API] Failed to list milestones for acme/widgets"
      ++ newline ++ "Details: {}" /\
  toDisplay render e1 true <> toDisplay render e1 false.
Proof.
  intros render e1 e2.
  destruct (toDisplay_hides_cause render e1 e2) as (H1 & H2 & H3);
    try reflexivity.
  split; [exact H1|]. split; [exact H2|].
  rewrite H3. vm_compute. discriminate.
Defined.

End ErrorFacts.

(* ===================================================================== *)
(** * The milestone manager *)
(* ===================================================================== *)

Section MilestoneManagerFacts.
Import Errors Effects MilestoneManager.

Lemma first_with_title_found (ms : list MilestoneData) (t : string) :
  (exists m, In m ms /\ title m = t) ->
  exists m, In m ms /\ title m = t /\
            first_with_title ms t = Some (number m).
Proof.
  induction ms as [|m0 ms IH]; intros (m & Hin & Ht); [destruct Hin|].
  simpl. destruct (String.eqb (title m0) t) eqn:E.
  - apply String.eqb_eq in E. exists m0. simpl; auto.
  - destruct Hin as [->|Hin].
    + apply String.eqb_neq in E. contradiction.
    + destruct IH as (m' & Hin' & Ht' & Hf); [now exists m|].
      exists m'. simpl; auto.
Qed.

Lemma first_with_title_none (ms : list MilestoneData) (t : string) :
  first_with_title ms t = None <-> forall m, In m ms -> title m <> t.
Proof.
  induction ms as [|m0 ms IH]; simpl.
  - split; [intros _ m [] | reflexivity].
  - destruct (String.eqb (title m0) t) eqn:E.
    + apply String.eqb_eq in E. split; [discriminate|].
      intros H. exfalso. apply (H m0); auto.
    + apply String.eqb_neq in E. rewrite IH. split.
      * intros H m [<-|Hin]; auto.
      * intros H m Hin. apply H. now right.
Qed.

(** C6.  When the lookup returns an open milestone whose title is exactly
    the desired one, [ensureMilestone] returns the number of such a
    milestone (the first in the list) after the lookup alone; a create
    request is sent only when the lookup succeeded and no open milestone
    has the exact title. *)
Theorem ensureMilestone_lookup_before_create
    (w : World) (ref : RepoRef) (t : string) (log : list Call) :
  (forall ms,
      listMilestones_response w (owner ref) (repo ref) = inr ms ->
      (exists m, In m ms /\ title m = t) ->
      exists m, In m ms /\ title m = t /\
        ensureMilestone w ref t log =
          (inr (number m),
           (log ++ [ListMilestones (owner ref) (repo ref) "open"])%list)) /\
  (forall o r t',
      In (CreateMilestone o r t') (snd (ensureMilestone w ref t log)) ->
      ~ In (CreateMilestone o r t') log ->
      exists ms,
        listMilestones_response w (owner ref) (repo ref) = inr ms /\
        forall m, In m ms -> title m <> t).
Proof.
  split.
  - intros ms Hresp Hex.
    destruct (first_with_title_found ms t Hex) as (m & Hin & Ht & Hf).
    exists m. repeat split; auto.
    cbv [ensureMilestone findMilestoneByTitle listMilestones
         bind try_catch request ret].
    rewrite Hresp, Hf. reflexivity.
  - intros o r t'.
    cbv [ensureMilestone findMilestoneByTitle listMilestones
         bind try_catch request ret throw].
    destruct (listMilestones_response w (owner ref) (repo ref))
      as [err|ms] eqn:Hresp; simpl.
    + intros Hin Hnot. apply in_app_or in Hin as [Hin|[Hin|[]]];
        [contradiction | discriminate].
    + destruct (first_with_title ms t) as [n|] eqn:Hf; simpl.
      * intros Hin Hnot. apply in_app_or in Hin as [Hin|[Hin|[]]];
          [contradiction | discriminate].
      * intros _ _. exists ms. split; [reflexivity|].
        now apply first_with_title_none.
Qed.

Lemma ensureMilestone_lookup_before_create_witness :
  let w :=
    mkWorld (fun _ _ _ _ => inr tt)
            (fun _ _ => inr [mkMilestoneData 3 "Backlog";
                             mkMilestoneData 8 "Bugfix Sprint"])
            (fun _ _ _ => inr 99%Z)
            (fun _ _ _ _ => inr tt)
            (fun _ _ => inr None) "" in
  let ref := mkRepoRef "acme" "widgets" in
  ensureMilestone w ref "Bugfix Sprint" [] =
    (inr 8%Z, [ListMilestones "acme" "widgets" "open"]) /\
  (In (CreateMilestone "acme" "widgets" "Roadmap")
      (snd (ensureMilestone w ref "Roadmap" [])) /\
   forall m, In m [mkMilestoneData 3 "Backlog";
                   mkMilestoneData 8 "Bugfix Sprint"] ->
             title m <> "Roadmap").
Proof.
  intros w ref. split.
  - destruct (ensureMilestone_lookup_before_create w ref "Bugfix Sprint" [])
      as [H _].
    destruct (H [mkMilestoneData 3 "Backlog";
                 mkMilestoneData 8 "Bugfix Sprint"] eq_refl)
      as (m & Hin & Ht & Hrun).
    + exists (mkMilestoneData 8 "Bugfix Sprint"). simpl; auto.
    + rewrite Hrun. simpl in Hin.
      destruct Hin as [<-|[<-|[]]]; [discriminate Ht | reflexivity].
  - destruct (ensureMilestone_lookup_before_create w ref "Roadmap" [])
      as [_ H].
    assert (Hin : In (CreateMilestone "acme" "widgets" "Roadmap")
                     (snd (ensureMilestone w ref "Roadmap" [])))
      by (vm_compute; auto).
    split; [exact Hin|].
    destruct (H _ _ _ Hin (fun x => x)) as (ms & Hms & Hno).
    injection Hms as <-. exact Hno.
Defined.

(** C8 (as amended).  When the list, create or attach request fails, the
    manager throws a [TaskAssistantError] whose severity is the
    ["github-api"] member and whose [cause] is the original failure. *)
Theorem remote_failure_is_github_api_error
    (w : World) (ref : RepoRef) (t : string)
    (issueNumber milestoneNumber : Z) (log : list Call) (err : Unknown) :
  (listMilestones_response w (owner ref) (repo ref) = inl err ->
   exists e, fst (listMilestones w ref log) = inl (UTaskAssistantError e) /\
             severity_tag (severity e) = "github-api" /\ cause e = err) /\
  (forall ms,
     listMilestones_response w (owner ref) (repo ref) = inr ms ->
     first_with_title ms t = None ->
     createMilestone_response w (owner ref) (repo ref) t = inl err ->
     exists e, fst (ensureMilestone w ref t log)
                 = inl (UTaskAssistantError e) /\
               severity_tag (severity e) = "github-api" /\ cause e = err) /\
  (update_response w (owner ref) (repo ref) issueNumber milestoneNumber
     = inl err ->
   exists e, fst (attachMilestoneToIssue w ref issueNumber milestoneNumber log)
               = inl (UTaskAssistantError e) /\
             severity_tag (severity e) = "github-api" /\ cause e = err).
Proof.
  split; [|split].
  - intros H. cbv [listMilestones try_catch request throw]. rewrite H.
    eexists. split; [reflexivity|]. split; reflexivity.
  - intros ms Hl Hf Hc.
    cbv [ensureMilestone findMilestoneByTitle listMilestones
         bind try_catch request ret throw].
    rewrite Hl, Hf, Hc.
    eexists. split; [reflexivity|]. split; reflexivity.
  - intros H. cbv [attachMilestoneToIssue try_catch request throw].
    rewrite H. eexists. split; [reflexivity|]. split; reflexivity.
Qed.

Lemma remote_failure_is_github_api_error_witness :
  let boom := UError "socket hang up" "at ClientRequest (http.js:1)" in
  let w :=
    mkWorld (fun _ _ _ _ => inr tt)
            (fun _ _ => inl boom)
            (fun _ _ _ => inl boom)
            (fun _ _ _ _ => inl boom)
            (fun _ _ => inr None) "at milestoneManager.ts" in
  exists e,
    fst (listMilestones w (mkRepoRef "acme" "widgets") [])
      = inl (UTaskAssistantError e) /\
    severity_tag (severity e) = "github-api" /\ cause e = boom.
Proof.
  intros boom w.
  destruct (remote_failure_is_github_api_error
              w (mkRepoRef "acme" "widgets") "Bugfix Sprint" 42 7 [] boom)
    as [H _].
  apply H. reflexivity.
Defined.

(** C8, as stated, fails: the severity tag of the error is not ["api"]. *)
Lemma remote_failure_api_tag_counterexample :
  ~ (forall (w : World) (ref : RepoRef) (log : list Call) (err : Unknown),
        listMilestones_response w (owner ref) (repo ref) = inl err ->
        exists e,
          fst (listMilestones w ref log) = inl (UTaskAssistantError e) /\
          severity_tag (severity e) = "api" /\ cause e = err).
Proof.
  intros H.
  destruct (H (mkWorld (fun _ _ _ _ => inr tt)
                       (fun _ _ => inl (UError "socket hang up" ""))
                       (fun _ _ _ => inr 1%Z)
                       (fun _ _ _ _ => inr tt)
                       (fun _ _ => inr None) "")
              (mkRepoRef "acme" "widgets") []
              (UError "socket hang up" "") eq_refl)
    as (e & He & Htag & _).
  vm_compute in He. injection He as <-.
  vm_compute in Htag. discriminate.
Qed.

End MilestoneManagerFacts.

(* ===================================================================== *)
(** * The run *)
(* ===================================================================== *)

Section RunFacts.
Import Types ConfigTypes Errors Effects Index.

Ltac solve_extension new :=
  exists new; simpl; rewrite <- ?app_assoc, ?app_nil_r; simpl;
  repeat split; try reflexivity; try discriminate;
  intros; repeat constructor; simpl;
  try match goal with H : _ = _ |- _ => now rewrite H end.

Lemma fix_track_label_extension w config o r issue c log :
  remote_extension w (truthy_flag (enabled (selfHealing_of config))) log
                   (fix_track_label w config o r issue c log).
Proof.
  unfold fix_track_label.
  destruct (trackLabelToApply c) as [label|]; [|solve_extension (@nil Call)].
  destruct (truthy_flag (enabled (selfHealing_of config))) eqn:He; simpl;
    [|solve_extension (@nil Call)].
  destruct (truthy_flag (fixMissingTrack (selfHealing_of config))); simpl;
    [|solve_extension (@nil Call)].
  destruct (JsString.truthy label); [|solve_extension (@nil Call)].
  cbv [bind request ret].
  destruct (addLabels_response w o r (number issue) [label]) as [err|[]] eqn:E;
    solve_extension [AddLabels o r (number issue) [label]].
Qed.

Lemma enforce_milestone_extension w config o r issue c log :
  remote_extension w (truthy_flag (enabled (selfHealing_of config))) log
                   (enforce_milestone w config o r issue c log).
Proof.
  unfold enforce_milestone.
  destruct (truthy_flag (enabled (selfHealing_of config))) eqn:He; simpl;
    [|solve_extension (@nil Call)].
  destruct (truthy_flag (fixMissingMilestone (selfHealing_of config))); simpl;
    [|solve_extension (@nil Call)].
  destruct (MilestoneRules.inferMilestoneTitle config (track c))
    as [desired|]; [|solve_extension (@nil Call)].
  destruct (JsString.truthy desired && _)%bool; [|solve_extension (@nil Call)].
  cbv [MilestoneManager.ensureMilestone MilestoneManager.findMilestoneByTitle
       MilestoneManager.listMilestones MilestoneManager.attachMilestoneToIssue
       bind try_catch request ret throw MilestoneManager.owner
       MilestoneManager.repo].
  destruct (listMilestones_response w o r) as [err|ms] eqn:El;
    [solve_extension [ListMilestones o r "open"]|].
  destruct (MilestoneManager.first_with_title ms desired) as [n|].
  - destruct (update_response w o r (number issue) n) as [err|[]] eqn:Eu;
      solve_extension [ListMilestones o r "open";
                       UpdateIssue o r (number issue) n].
  - destruct (createMilestone_response w o r desired) as [err|n] eqn:Ec;
      [solve_extension [ListMilestones o r "open";
                        CreateMilestone o r desired]|].
    destruct (update_response w o r (number issue) n) as [err|[]] eqn:Eu;
      solve_extension [ListMilestones o r "open";
                       CreateMilestone o r desired;
                       UpdateIssue o r (number issue) n].
Qed.

Lemma selfHeal_extension w config o r issue c log :
  remote_extension w (truthy_flag (enabled (selfHealing_of config))) log
                   (selfHeal w config o r issue c log).
Proof.
  unfold selfHeal, bind.
  destruct (fix_track_label_extension w config o r issue c log)
    as (new1 & Hlog1 & Hrem1 & Hok1 & Hoff1).
  destruct (fix_track_label w config o r issue c log) as [[err|c'] log1];
    simpl in *.
  - exists new1. simpl. repeat split; auto.
  - destruct (enforce_milestone_extension w config o r issue c' log1)
      as (new2 & Hlog2 & Hrem2 & Hok2 & Hoff2).
    exists (new1 ++ new2)%list. subst log1. rewrite app_assoc.
    repeat split; auto.
    + apply Forall_app; auto.
    + intros Hs. apply Forall_app; auto.
    + intros Hoff. now rewrite Hoff1, Hoff2.
Qed.

Lemma selfHeal_disabled w config o r issue c log :
  truthy_flag (enabled (selfHealing_of config)) = false ->
  selfHeal w config o r issue c log
    = (inr (c, current_milestone_title issue), log).
Proof.
  intros H. unfold selfHeal, fix_track_label, enforce_milestone, bind, ret.
  rewrite H. simpl. now destruct (trackLabelToApply c).
Qed.

(** A failure of the self-healing steps leaves [process] at once. *)
Lemma process_aborts w s config issue err log1 :
  payload_issue s = Some issue ->
  selfHeal w config (repo_owner s) (repo_name s) issue
           (IssueClassifier.classifyIssue config (labels_of issue)) []
    = (inl err, log1) ->
  process w s config [] = (inl err, log1).
Proof.
  intros Hi Hh. unfold process, bind. now rewrite Hi, Hh.
Qed.

(** After successful self-healing, [process] adds at most the telemetry
    write, and what it outputs is the healed state. *)
Lemma process_completes w s config issue c final log1 :
  payload_issue s = Some issue ->
  selfHeal w config (repo_owner s) (repo_name s) issue
           (IssueClassifier.classifyIssue config (labels_of issue)) []
    = (inr (c, final), log1) ->
  exists tail,
    snd (process w s config []) = (log1 ++ tail)%list /\
    Forall (fun c0 => is_remote c0 = false) tail /\
    (forall result,
        fst (process w s config []) = inr (Some result) ->
        r_track result = track c /\ r_actions result = actions c /\
        r_milestone result = final).
Proof.
  intros Hi Hh. unfold process, bind. rewrite Hi, Hh.
  unfold write_telemetry, bind, request, ret.
  destruct (_ && ORCHESTRATOR_TELEMETRY_ENABLED s)%bool.
  - match goal with
    | |- context [writeTelemetry_response w ?n ?p] =>
        exists [WriteTelemetry n p];
        destruct (writeTelemetry_response w n p) as [err|path]
    end; simpl; (split; [reflexivity|]); (split; [auto|]).
    + discriminate.
    + intros result [= <-]; auto.
  - exists []. simpl. rewrite app_nil_r.
    split; [reflexivity|]. split; [constructor|].
    intros result [= <-]; auto.
Qed.

Lemma run_log w s :
  snd (run w s)
    = snd (process w s (Config.loadConfig (files s) (config_path s)) []).
Proof.
  unfold run. destruct (process w s _ []) as [[err|[result|]] log];
    reflexivity.
Qed.

Lemma remote_not_telemetry (c : Call) :
  is_remote c = true <-> is_telemetry_write c = false.
Proof. destruct c; simpl; split; congruence. Qed.



(** C1 (as amended).  In every run in which a remote request of the
    self-healing steps fails, the run stops there: it ends in
    [core.setFailed], and no telemetry payload is handed to the
    persistence collaborator. *)
Theorem remote_failure_aborts_run (w : World) (s : Surroundings) :
  (exists c, In c (snd (run w s)) /\ is_remote c = true /\
             call_fails w c = true) ->
  (exists message, fst (run w s) = SetFailed message) /\
  Forall (fun c => is_telemetry_write c = false) (snd (run w s)).
Proof.
  intros (c0 & Hin & Hrem & Hfail).
  rewrite run_log in Hin. rewrite run_log. unfold run.
  set (config := Config.loadConfig (files s) (config_path s)) in *.
  destruct (payload_issue s) as [issue|] eqn:Hi.
  2:{ unfold process in Hin. rewrite Hi in Hin. destruct Hin. }
  pose proof (selfHeal_extension w config (repo_owner s) (repo_name s) issue
                (IssueClassifier.classifyIssue config (labels_of issue)) [])
    as (new & Hlog & Hremote & Hok & _).
  destruct (selfHeal w config (repo_owner s) (repo_name s) issue
              (IssueClassifier.classifyIssue config (labels_of issue)) [])
    as [[err|[c final]] log1] eqn:Hheal; simpl in Hlog, Hok; subst log1.
  - rewrite (process_aborts w s config issue err new Hi Hheal). simpl.
    split.
    + destruct (as_Error err) as [[m st]|]; eexists; reflexivity.
    + eapply Forall_impl; [|exact Hremote].
      intros a. apply remote_not_telemetry.
  - exfalso.
    destruct (process_completes w s config issue c final new Hi Hheal)
      as (tail & Htail & Hnot & _).
    rewrite Htail in Hin. apply in_app_or in Hin as [Hin|Hin].
    + specialize (Hok eq_refl). rewrite Forall_forall in Hok.
      rewrite (Hok c0 Hin) in Hfail. discriminate.
    + rewrite Forall_forall in Hnot. rewrite (Hnot c0 Hin) in Hrem.
      discriminate.
Qed.

Lemma remote_failure_aborts_run_witness :
  (exists message,
      fst (run ScenarioA.labels_rejected
               (ScenarioA.surroundings ScenarioA.snake_case_document))
        = SetFailed message) /\
  Forall (fun c => is_telemetry_write c = false)
         (snd (run ScenarioA.labels_rejected
                   (ScenarioA.surroundings ScenarioA.snake_case_document))).
Proof.
  apply (remote_failure_aborts_run ScenarioA.labels_rejected
           (ScenarioA.surroundings ScenarioA.snake_case_document)).
  exists (AddLabels "acme" "widgets" 42 ["track:bug"]).
  vm_compute. auto.
Defined.

(** C1, as stated, fails: with telemetry enabled and the label request
    rejected, nothing is handed to the persistence collaborator. *)
Lemma telemetry_after_failure_counterexample :
  ~ (forall (w : World) (s : Surroundings),
        (exists c, In c (snd (run w s)) /\ is_remote c = true /\
                   call_fails w c = true) ->
        exists n payload, In (WriteTelemetry n payload) (snd (run w s))).
Proof.
  intros H.
  destruct (H ScenarioA.labels_rejected
              (ScenarioA.surroundings ScenarioA.snake_case_document))
    as (n & payload & Hin).
  - exists (AddLabels "acme" "widgets" 42 ["track:bug"]).
    vm_compute. auto.
  - vm_compute in Hin. destruct Hin as [Hin|[]]. discriminate.
Qed.

(** C2: the run of scenario A on the code.  The track is ["bug"], but no
    action is taken and no milestone is set: the camel-case keys of the
    document are not the ones the normalizer reads, so self-healing stays
    off. *)
Theorem scenario_A_run :
  fst (run ScenarioA.all_succeed
           (ScenarioA.surroundings ScenarioA.document))
    = Output (mkResult (Some "bug") [] None
                       (Some "telemetry/issue-42.json")) /\
  filter is_remote
         (snd (run ScenarioA.all_succeed
                   (ScenarioA.surroundings ScenarioA.document))) = [] /\
  Config.unknownKeys (JsValue.entries ScenarioA.document)
    = ["milestoneRules"; "selfHealing"].
Proof. vm_compute. auto. Qed.

(** Under the snake-case keys the label is applied, but the milestone is
    still not set: the milestone rules are read from [milestones], which
    the normalizer never fills. *)
Lemma scenario_A_snake_case_run :
  fst (run ScenarioA.all_succeed
           (ScenarioA.surroundings ScenarioA.snake_case_document))
    = Output (mkResult (Some "bug") ["apply-track-label:track:bug"] None
                       (Some "telemetry/issue-42.json")) /\
  filter is_remote
         (snd (run ScenarioA.all_succeed
                   (ScenarioA.surroundings ScenarioA.snake_case_document)))
    = [AddLabels "acme" "widgets" 42 ["track:bug"]].
Proof. vm_compute. auto. Qed.

End RunFacts.

(* ===================================================================== *)
(** * The configuration normalizer *)
(* ===================================================================== *)

Section ConfigFacts.
Import JsValue ConfigTypes Config.

Lemma fold_left_invariant {A B : Type} (P : A -> Prop) (f : A -> B -> A)
      (l : list B) (a : A) :
  P a -> (forall a b, In b l -> P a -> P (f a b)) -> P (fold_left f l a).
Proof.
  revert a. induction l as [|b l IH]; intros a Ha Hstep; simpl; [exact Ha|].
  apply IH.
  - apply Hstep; simpl; auto.
  - intros a' b' Hin. apply Hstep. now right.
Qed.

Lemma assign_in {V : Type} (key : string) (value : V) out (x : string * V) :
  In x (assign key value out) -> x = (key, value) \/ In x out.
Proof.
  induction out as [|[k v] out IH]; simpl.
  - intros [<-|[]]. now left.
  - destruct (String.eqb key k).
    + intros [<-|H]; auto.
    + intros [<-|H]; auto. destruct (IH H); auto.
Qed.

(** An array that passes the [some(p => typeof p !== "string")] test is
    the array of the strings kept for it. *)
Lemma all_strings (items : list JSValue) :
  existsb (fun p => negb (typeof_string p)) items = false ->
  items = map JStr (strings_of items).
Proof.
  induction items as [|p items IH]; simpl; [reflexivity|].
  intros H. apply orb_false_iff in H as [Hp Hrest].
  destruct p; try discriminate. simpl. now rewrite <- IH.
Qed.

(** Every track kept is a raw entry whose value is an array of strings. *)
Lemma validateTracks_entries (raw : JSValue) trs t ps :
  validateTracks raw = Some trs -> In (t, ps) trs ->
  In (t, JArr (map JStr ps)) (entries raw).
Proof.
  unfold validateTracks.
  destruct (is_nullish raw); [discriminate|].
  destruct (negb (typeof_object raw) || isArray raw)%bool; [discriminate|].
  intros [= <-]. revert t ps.
  apply (fold_left_invariant
           (fun out => forall t ps, In (t, ps) out ->
                                    In (t, JArr (map JStr ps)) (entries raw))).
  - intros t ps [].
  - intros out [track patterns] Hin IH t ps.
    destruct patterns; auto.
    destruct (existsb _ items) eqn:E; auto.
    intros H. apply assign_in in H as [[= -> ->]|H]; auto.
    now rewrite <- all_strings.
Qed.

(** Every milestone rule kept is a raw entry whose value is a string. *)
Lemma validateMilestoneRules_entries (raw : JSValue) rules t title :
  validateMilestoneRules raw = Some rules -> In (t, title) rules ->
  In (t, JStr title) (entries raw).
Proof.
  unfold validateMilestoneRules.
  destruct (is_nullish raw); [discriminate|].
  destruct (negb (typeof_object raw) || isArray raw)%bool; [discriminate|].
  intros [= <-]. revert t title.
  apply (fold_left_invariant
           (fun out => forall t title, In (t, title) out ->
                                       In (t, JStr title) (entries raw))).
  - intros t title [].
  - intros out [track v] Hin IH t title.
    destruct v; auto.
    intros H. apply assign_in in H as [[= -> ->]|H]; auto.
Qed.

Lemma validateTracks_present (raw : JSValue) :
  validateTracks raw <> None <-> exists props, raw = JObj props.
Proof.
  destruct raw; unfold validateTracks; simpl; split; intros H;
    try (exfalso; now apply H);
    try (destruct H as [props H]; discriminate);
    try discriminate; now eexists.
Qed.

Lemma validateMilestoneRules_present (raw : JSValue) :
  validateMilestoneRules raw <> None <-> exists props, raw = JObj props.
Proof.
  destruct raw; unfold validateMilestoneRules; simpl; split; intros H;
    try (exfalso; now apply H);
    try (destruct H as [props H]; discriminate);
    try discriminate; now eexists.
Qed.

Lemma validateTelemetry_complete (raw : JSValue) :
  exists b p, validateTelemetry raw = mkTelemetry (Some b) (Some p).
Proof.
  unfold validateTelemetry.
  destruct (negb (truthy raw)); [now eexists; eexists|].
  destruct (get raw "enabled"), (truthy (get raw "path") && _)%bool;
    now eexists; eexists.
Qed.

Lemma validateSelfHealing_flags (raw : JSValue) :
  (truthy raw = false -> validateSelfHealing raw = mkSelfHealing None None None)
  /\
  (truthy raw = true ->
   (exists b, enabled (validateSelfHealing raw) = Some b) /\
   ((is_nullish (get raw "fix_missing_track")
     || typeof_boolean (get raw "fix_missing_track"))%bool = true ->
    exists b, fixMissingTrack (validateSelfHealing raw) = Some b) /\
   ((is_nullish (get raw "fix_missing_milestone")
     || typeof_boolean (get raw "fix_missing_milestone"))%bool = true ->
    exists b, fixMissingMilestone (validateSelfHealing raw) = Some b)).
Proof.
  unfold validateSelfHealing. split; intros H; rewrite H; simpl.
  - reflexivity.
  - split; [|split].
    + destruct (get raw "enabled"); now eexists.
    + intros Hb. rewrite <- negb_orb, Hb. simpl. now eexists.
    + intros Hb. rewrite <- negb_orb, Hb. simpl. now eexists.
Qed.

(** C3 (as amended).  [loadConfig] returns a configuration for every
    file state, a read or parse that throws included.  Unless the
    document is an object (or array) the result is the empty object: no
    field is present.  For an object, [telemetry] is present with a
    boolean [enabled] and a string [path], [selfHealing] is present and
    [milestones] is never filled.  For an object that is moreover an
    ordinary document (no top-level key normalizes to ["__proto__"], no key
    of its [tracks] or [milestone_rules] section is ["__proto__"]):
    [selfHealing] is the empty object when the raw section is falsy; for a
    truthy raw section [enabled] is a boolean, and each fix flag is a
    boolean when its raw value is absent, null or a boolean; [tracks] and
    [milestone_rules] are present exactly when their raw section is a
    non-array object, and each entry they hold is a raw entry of the
    declared type (an array of strings, a string). *)
Theorem loadConfig_fields (files : string -> FileState) (path : string) :
  let config := loadConfig files path in
  ((forall doc, files path = Parsed doc ->
                (truthy doc && typeof_object doc)%bool = false) ->
   config = empty_config) /\
  (forall doc,
      files path = Parsed doc ->
      (truthy doc && typeof_object doc)%bool = true ->
      (exists b p, telemetry config = Some (mkTelemetry (Some b) (Some p))) /\
      (exists sh, selfHealing config = Some sh) /\
      milestones config = None /\
      (ModelScope.ordinary_document doc = true ->
       let raw := fun key => lookup key (normalize_keys doc) in
       (exists sh,
           selfHealing config = Some sh /\
           (truthy (raw "self_healing") = false ->
            sh = mkSelfHealing None None None) /\
           (truthy (raw "self_healing") = true ->
            (exists b, enabled sh = Some b) /\
            ((is_nullish (get (raw "self_healing") "fix_missing_track")
              || typeof_boolean
                   (get (raw "self_healing") "fix_missing_track"))%bool
             = true -> exists b, fixMissingTrack sh = Some b) /\
            ((is_nullish (get (raw "self_healing") "fix_missing_milestone")
              || typeof_boolean
                   (get (raw "self_healing") "fix_missing_milestone"))%bool
             = true -> exists b, fixMissingMilestone sh = Some b))) /\
       (tracks config <> None <-> exists props, raw "tracks" = JObj props) /\
       (forall trs t ps,
           tracks config = Some trs -> In (t, ps) trs ->
           In (t, JArr (map JStr ps)) (entries (raw "tracks"))) /\
       (milestone_rules config <> None <->
        exists props, raw "milestone_rules" = JObj props) /\
       (forall rules t title,
           milestone_rules config = Some rules -> In (t, title) rules ->
           In (t, JStr title) (entries (raw "milestone_rules"))))).
Proof.
  intros config. split.
  - intros H. subst config. unfold loadConfig.
    destruct (files path) as [|err|doc]; try reflexivity.
    specialize (H doc eq_refl).
    destruct (truthy doc), (typeof_object doc); simpl in *;
      try reflexivity; discriminate.
  - intros doc Hfile Hobj. subst config. unfold loadConfig.
    rewrite Hfile.
    apply andb_true_iff in Hobj as [-> ->]. simpl.
    split; [|split; [|split]].
    + destruct (validateTelemetry_complete
                  (lookup "telemetry" (normalize_keys doc))) as (b & p & ->).
      now exists b, p.
    + now eexists.
    + reflexivity.
    + intros _.
      split; [|split; [|split; [|split]]].
      * eexists. split; [reflexivity|].
        apply validateSelfHealing_flags.
      * apply validateTracks_present.
      * intros trs t ps. apply validateTracks_entries.
      * apply validateMilestoneRules_present.
      * intros rules t title. apply validateMilestoneRules_entries.
Qed.

Lemma loadConfig_fields_witness :
  loadConfig (fun _ => Parsed JNull) "task-assistant.yml" = empty_config /\
  loadConfig (fun _ => Unreadable (Errors.UError "EACCES" ""))
             "task-assistant.yml" = empty_config /\
  (exists b p,
      telemetry (loadConfig (fun _ => Parsed ScenarioA.snake_case_document)
                            "task-assistant.yml")
      = Some (mkTelemetry (Some b) (Some p))) /\
  tracks (loadConfig (fun _ => Parsed ScenarioA.snake_case_document)
                     "task-assistant.yml") <> None.
Proof.
  split; [|split; [|split]].
  - apply (loadConfig_fields (fun _ => Parsed JNull) "task-assistant.yml").
    intros doc [= <-]. reflexivity.
  - apply (loadConfig_fields
             (fun _ => Unreadable (Errors.UError "EACCES" ""))
             "task-assistant.yml").
    intros doc H. discriminate.
  - apply (loadConfig_fields
             (fun _ => Parsed ScenarioA.snake_case_document)
             "task-assistant.yml" ) with (doc := ScenarioA.snake_case_document);
      reflexivity.
  - destruct (loadConfig_fields
                (fun _ => Parsed ScenarioA.snake_case_document)
                "task-assistant.yml") as [_ H].
    destruct (H ScenarioA.snake_case_document eq_refl eq_refl)
      as (_ & _ & _ & Hordinary).
    destruct (Hordinary eq_refl) as (_ & Htracks & _).
    apply Htracks. vm_compute. now eexists.
Defined.

(** C3, as stated, fails: a [null] document is normalized to the empty
    object, in which no field is present. *)
Lemma loadConfig_fields_counterexample :
  ~ (forall (files : string -> FileState) (path : string),
        let config := loadConfig files path in
        (exists trs, tracks config = Some trs) /\
        (exists rules, milestone_rules config = Some rules) /\
        (exists e t m,
            selfHealing config
            = Some (mkSelfHealing (Some e) (Some t) (Some m))) /\
        (exists b p, telemetry config = Some (mkTelemetry (Some b) (Some p)))).
Proof.
  intros H.
  destruct (H (fun _ => Parsed JNull) "task-assistant.yml")
    as [[trs Htracks] _].
  vm_compute in Htracks. discriminate.
Qed.

(** Whatever the file holds, the milestone resolver finds no rule in the
    normalized configuration: it reads [milestones], the normalizer
    writes [milestone_rules]. *)
Lemma loadConfig_has_no_milestone_rule files path (track : option string) :
  MilestoneRules.inferMilestoneTitle (loadConfig files path) track = None.
Proof.
  assert (H : milestones (loadConfig files path) = None).
  { unfold loadConfig. destruct (files path) as [|err|doc]; try reflexivity.
    destruct (negb (truthy doc) || negb (typeof_object doc))%bool;
      reflexivity. }
  unfold MilestoneRules.inferMilestoneTitle. rewrite H.
  destruct track as [t|]; [|reflexivity].
  destruct (negb (JsString.truthy t)); reflexivity.
Qed.

(** A non-boolean fix flag is warned about and left undefined. *)
Lemma validateSelfHealing_non_boolean_flag :
  validateSelfHealing
    (JObj [("enabled", JBool true); ("fix_missing_track", JStr "yes")])
  = mkSelfHealing (Some true) None (Some false).
Proof. reflexivity. Qed.

End ConfigFacts.

(* ===================================================================== *)
(** * More on the track classifier *)
(* ===================================================================== *)

Section ClassifierCoverage.
Import Types ConfigTypes IssueClassifier.

Lemma lower_upper_ascii (c : ascii) :
  JsString.lower_ascii (JsString.upper_ascii c) = JsString.lower_ascii c.
Proof. destruct c as [[] [] [] [] [] [] [] []]; reflexivity. Qed.

Lemma lower_lower_ascii (c : ascii) :
  JsString.lower_ascii (JsString.lower_ascii c) = JsString.lower_ascii c.
Proof. destruct c as [[] [] [] [] [] [] [] []]; reflexivity. Qed.

Lemma toLowerCase_toUpperCase (s : string) :
  JsString.toLowerCase (JsString.toUpperCase s) = JsString.toLowerCase s.
Proof.
  unfold JsString.toLowerCase, JsString.toUpperCase.
  induction s as [|c s IH]; simpl; [reflexivity|].
  now rewrite lower_upper_ascii, IH.
Qed.

Lemma toLowerCase_idempotent (s : string) :
  JsString.toLowerCase (JsString.toLowerCase s) = JsString.toLowerCase s.
Proof.
  unfold JsString.toLowerCase.
  induction s as [|c s IH]; simpl; [reflexivity|].
  now rewrite lower_lower_ascii, IH.
Qed.

Lemma existsb_map_compose {A B : Type} (f : B -> bool) (g : A -> B)
      (l : list A) :
  existsb f (map g l) = existsb (fun a => f (g a)) l.
Proof. induction l as [|a l IH]; simpl; [reflexivity | now rewrite IH]. Qed.

Lemma existsb_same_elements {A : Type} (f : A -> bool) (l1 l2 : list A) :
  (forall a, In a l1 <-> In a l2) -> existsb f l1 = existsb f l2.
Proof.
  intros H. destruct (existsb f l1) eqn:E1; symmetry.
  - apply existsb_exists in E1 as (a & Ha & Hf).
    apply existsb_exists. exists a. split; [now apply H | exact Hf].
  - destruct (existsb f l2) eqn:E2; [|reflexivity].
    apply existsb_exists in E2 as (a & Ha & Hf).
    assert (existsb f l1 = true) as E
        by (apply existsb_exists; exists a; split; [now apply H | exact Hf]).
    congruence.
Qed.

Lemma detect_ext (nl1 nl2 : list string) (ts1 ts2 : list (string * list string)) :
  map fst ts1 = map fst ts2 ->
  Forall2 (fun e1 e2 => matches nl1 (snd e1) = matches nl2 (snd e2)) ts1 ts2 ->
  detect nl1 ts1 = detect nl2 ts2.
Proof.
  intros Hn H. induction H as [|[t1 p1] [t2 p2] ts1 ts2 Hm _ IH]; simpl in *.
  - reflexivity.
  - injection Hn as -> Hn. rewrite Hm.
    destruct (matches nl2 p2); [reflexivity | now apply IH].
Qed.

Lemma Forall2_same {A : Type} (R : A -> A -> Prop) (l : list A) :
  (forall a, R a a) -> Forall2 R l l.
Proof. intros H. induction l; constructor; auto. Qed.

Lemma classifyIssue_by_detect (c1 c2 : TaskAssistantConfig)
      (labels1 labels2 : list string) :
  detect (map JsString.toLowerCase labels1)
         (match tracks c1 with Some t => t | None => [] end)
  = detect (map JsString.toLowerCase labels2)
           (match tracks c2 with Some t => t | None => [] end) ->
  classifyIssue c1 labels1 = classifyIssue c2 labels2.
Proof. intros H. unfold classifyIssue. now rewrite H. Qed.

(** For ASCII labels and ASCII patterns (where the case mapping of the
    model is the one of the code), the classification does not change when
    the letter case of the labels or of the configured patterns changes. *)
Theorem classifyIssue_ignores_case
    (config : TaskAssistantConfig) (labels : list string) :
  forallb ModelScope.is_ascii labels = true ->
  (forall ts t ps, tracks config = Some ts -> In (t, ps) ts ->
                   forallb ModelScope.is_ascii ps = true) ->
  classifyIssue config (map JsString.toUpperCase labels)
    = classifyIssue config labels /\
  classifyIssue config (map JsString.toLowerCase labels)
    = classifyIssue config labels /\
  (forall config',
      tracks config' =
        option_map
          (map (fun e => (fst e, map JsString.toUpperCase (snd e))))
          (tracks config) ->
      classifyIssue config' labels = classifyIssue config labels).
Proof.
  intros _ _. split; [|split].
  - apply classifyIssue_by_detect. rewrite map_map.
    f_equal. apply map_ext. apply toLowerCase_toUpperCase.
  - apply classifyIssue_by_detect. rewrite map_map.
    f_equal. apply map_ext. apply toLowerCase_idempotent.
  - intros config' H. apply classifyIssue_by_detect. rewrite H.
    destruct (tracks config) as [ts|]; simpl; [|reflexivity].
    apply detect_ext.
    + rewrite map_map. reflexivity.
    + clear H. induction ts as [|[t ps] ts IH]; simpl; [constructor|].
      constructor; [|exact IH].
      simpl. unfold matches. rewrite existsb_map_compose.
      induction ps as [|p ps IHp]; simpl; [reflexivity|].
      now rewrite toLowerCase_toUpperCase, IHp.
Qed.

Lemma classifyIssue_ignores_case_witness :
  classifyIssue (mkConfig (Some [("docs", ["Documentation"]); ("bug", ["bug"])])
                          None None None None)
                (map JsString.toUpperCase ["needs-triage"; "Bug"])
  = classifyIssue (mkConfig (Some [("docs", ["Documentation"]); ("bug", ["bug"])])
                            None None None None)
                  ["needs-triage"; "Bug"].
Proof.
  destruct (classifyIssue_ignores_case
              (mkConfig (Some [("docs", ["Documentation"]); ("bug", ["bug"])])
                        None None None None)
              ["needs-triage"; "Bug"]) as [Hupper _].
  - reflexivity.
  - intros ts t ps [= <-] [[= <- <-]|[[= <- <-]|[]]]; reflexivity.
  - exact Hupper.
Defined.

(** Only the set of labels matters: two label lists with the same elements,
    in any order and with any repetitions, are classified alike. *)
Theorem classifyIssue_ignores_label_order
    (config : TaskAssistantConfig) (labels1 labels2 : list string) :
  (forall l, In l labels1 <-> In l labels2) ->
  classifyIssue config labels1 = classifyIssue config labels2.
Proof.
  intros H. apply classifyIssue_by_detect.
  apply detect_ext; [reflexivity|].
  apply Forall2_same. intros [t ps]. simpl. unfold matches.
  induction ps as [|p ps IH]; simpl; [reflexivity|].
  rewrite IH. f_equal. apply existsb_same_elements.
  intros a. rewrite !in_map_iff. split; intros (l & <- & Hl); exists l;
    (split; [reflexivity | now apply H]).
Qed.

Lemma classifyIssue_ignores_label_order_witness :
  classifyIssue (mkConfig (Some [("bug", ["bug"]); ("docs", ["doc"])])
                          None None None None)
                ["docs"; "Bug"; "docs"]
  = classifyIssue (mkConfig (Some [("bug", ["bug"]); ("docs", ["doc"])])
                            None None None None)
                  ["Bug"; "docs"].
Proof.
  apply classifyIssue_ignores_label_order.
  intros l. simpl. tauto.
Defined.

Lemma detect_split (nl : list string) ts T :
  detect nl ts = Some T ->
  exists before pats after,
    ts = (before ++ (T, pats) :: after)%list /\
    (forall t ps, In (t, ps) before -> matches nl ps = false) /\
    matches nl pats = true.
Proof.
  induction ts as [|[t ps] ts IH]; simpl; [discriminate|].
  destruct (matches nl ps) eqn:E.
  - intros [= ->]. exists [], ps, ts. repeat split; auto. intros ? ? [].
  - intros H. destruct (IH H) as (before & pats & after & -> & Hb & Hm).
    exists ((t, ps) :: before), pats, after. repeat split; auto.
    intros t' ps' [[= <- <-]|Hin]; eauto.
Qed.

(** Whenever a track is returned, it is a declared track with a non-empty
    name, one of its patterns is a case-insensitive substring of a label,
    no track that [Object.entries] enumerates before it (for keys that are
    not integer-like: declared before it) has such a pattern, and the label
    to apply is ["track:"] followed by its name. *)
Theorem classifyIssue_track_is_first_match
    (config : TaskAssistantConfig) (labels : list string) (T : string) :
  track (classifyIssue config labels) = Some T ->
  T <> "" /\
  trackLabelToApply (classifyIssue config labels) = Some ("track:" ++ T) /\
  exists before pats after,
    tracks config = Some (before ++ (T, pats) :: after)%list /\
    (forall t ps p l, In (t, ps) before -> In p ps -> In l labels ->
                      ~ JsString.CaseInsensitiveSubstring p l) /\
    exists P L, In P pats /\ In L labels /\
                JsString.CaseInsensitiveSubstring P L.
Proof.
  intros H.
  destruct (classifyIssue_cases config labels) as [(T' & HT & Hd & Hc)|Hc];
    rewrite Hc in *; simpl in H; [|discriminate].
  injection H as ->. split; [exact HT|]. split; [reflexivity|].
  apply detect_split in Hd as (before & pats & after & Hts & Hb & Hm).
  exists before, pats, after. split; [|split].
  - destruct (tracks config) as [ts|]; [now rewrite Hts|].
    destruct before; discriminate.
  - intros t ps p l Hin Hp Hl Hsub.
    assert (matches (map JsString.toLowerCase labels) ps = true) as E
        by (apply matches_case_insensitive; now exists p, l).
    rewrite (Hb t ps Hin) in E. discriminate.
  - now apply matches_case_insensitive.
Qed.

Lemma classifyIssue_track_is_first_match_witness :
  exists before pats after,
    Some [("docs", ["documentation"]); ("bug", ["bug"; "defect"])]
      = Some (before ++ ("bug", pats) :: after)%list /\
    exists P L, In P pats /\ In L ["needs-triage"; "Bug"] /\
                JsString.CaseInsensitiveSubstring P L.
Proof.
  destruct (classifyIssue_track_is_first_match
              (mkConfig (Some [("docs", ["documentation"]);
                               ("bug", ["bug"; "defect"])])
                        None None None None)
              ["needs-triage"; "Bug"] "bug" eq_refl)
    as (_ & _ & before & pats & after & Hts & _ & Hex).
  exists before, pats, after. split; [exact Hts | exact Hex].
Defined.

(** When no configured pattern is a case-insensitive substring of any
    label, the classification is exactly: no track, no label to apply, the
    single violation ["no-track-matched"], no action. *)
Theorem classifyIssue_without_match
    (config : TaskAssistantConfig) (labels : list string) :
  (forall ts t ps p l,
      tracks config = Some ts -> In (t, ps) ts -> In p ps -> In l labels ->
      ~ JsString.CaseInsensitiveSubstring p l) ->
  classifyIssue config labels
    = mkClassification None None ["no-track-matched"] [].
Proof.
  intros H. unfold classifyIssue. rewrite detect_none; [reflexivity|].
  intros t ps Hin.
  destruct (matches _ ps) eqn:E; [|reflexivity].
  apply matches_case_insensitive in E as (p & l & Hp & Hl & Hsub).
  destruct (tracks config) as [ts|]; [|destruct Hin].
  exfalso. exact (H ts t ps p l eq_refl Hin Hp Hl Hsub).
Qed.

Lemma classifyIssue_without_match_witness :
  classifyIssue (mkConfig (Some [("bug", ["bug"])]) None None None None)
                ["enhancement"]
  = mkClassification None None ["no-track-matched"] [].
Proof.
  apply classifyIssue_without_match.
  intros ts t ps p l [= <-] [[= <- <-]|[]] [<-|[]] [<-|[]] Hsub.
  apply includes_substring in Hsub. vm_compute in Hsub. discriminate.
Defined.

Lemma detect_app (nl : list string) ts more T :
  detect nl ts = Some T -> detect nl (ts ++ more)%list = Some T.
Proof.
  induction ts as [|[t ps] ts IH]; simpl; [discriminate|].
  destruct (matches nl ps); auto.
Qed.

(** Further tracks that [Object.entries] enumerates after the existing
    ones (tracks with names that are not integer-like, declared after them)
    never change the classification of an issue that already has a
    track. *)
Theorem classifyIssue_stable_under_new_tracks
    (config config' : TaskAssistantConfig) (labels : list string)
    (ts more : list (string * list string)) :
  tracks config = Some ts ->
  tracks config' = Some (ts ++ more)%list ->
  track (classifyIssue config labels) <> None ->
  classifyIssue config' labels = classifyIssue config labels.
Proof.
  intros H1 H2 Ht. apply classifyIssue_by_detect. rewrite H1, H2.
  destruct (classifyIssue_cases config labels) as [(T & _ & Hd & _)|Hc].
  - rewrite H1 in Hd. rewrite Hd. now apply detect_app.
  - rewrite Hc in Ht. now contradiction Ht.
Qed.

Lemma classifyIssue_stable_under_new_tracks_witness :
  classifyIssue (mkConfig (Some ([("bug", ["bug"])] ++ [("any", [""])])%list)
                          None None None None) ["Bug"]
  = classifyIssue (mkConfig (Some [("bug", ["bug"])]) None None None None)
                  ["Bug"].
Proof.
  apply (classifyIssue_stable_under_new_tracks _ _ _
           [("bug", ["bug"])] [("any", [""])]).
  - reflexivity.
  - reflexivity.
  - vm_compute. discriminate.
Defined.

(** An empty-string pattern is a catch-all: the track that
    [Object.entries] enumerates first (the first declared one, when no
    track name is integer-like), if it has a non-empty name and the pattern
    [""], takes every issue that has at least one label. *)
Theorem classifyIssue_empty_pattern_matches_all
    (config : TaskAssistantConfig) (labels : list string)
    (T : string) (pats : list string) (rest : list (string * list string)) :
  tracks config = Some ((T, pats) :: rest) ->
  In "" pats -> labels <> [] -> T <> "" ->
  track (classifyIssue config labels) = Some T.
Proof.
  intros Hts Hp Hl HT. unfold classifyIssue. rewrite Hts. simpl.
  assert (matches (map JsString.toLowerCase labels) pats = true) as E.
  { unfold matches. apply existsb_exists. exists "". split; [exact Hp|].
    destruct labels as [|l ls]; [contradiction|]. simpl.
    now rewrite includes_empty_pattern. }
  rewrite E. apply truthy_nonempty in HT. now rewrite HT.
Qed.

Lemma classifyIssue_empty_pattern_matches_all_witness :
  track (classifyIssue
           (mkConfig (Some [("inbox", ["triage"; ""]); ("bug", ["bug"])])
                     None None None None)
           ["Bug"]) = Some "inbox".
Proof.
  apply (classifyIssue_empty_pattern_matches_all _ _ "inbox" ["triage"; ""]
           [("bug", ["bug"])]).
  - reflexivity.
  - simpl; auto.
  - discriminate.
  - discriminate.
Defined.

End ClassifierCoverage.

(* ===================================================================== *)
(** * More on the configuration normalizer *)
(* ===================================================================== *)

Section ConfigCoverage.
Import JsValue ConfigTypes Config.

Lemma normalizeKey_cons (c : ascii) (key : string) :
  normalizeKey (String c key)
  = String (if Ascii.eqb c "-"%char then "_"%char else c) (normalizeKey key).
Proof. reflexivity. Qed.

Lemma normalizeKey_idempotent (key : string) :
  normalizeKey (normalizeKey key) = normalizeKey key.
Proof.
  induction key as [|c key IH]; [reflexivity|].
  rewrite !normalizeKey_cons, IH.
  destruct (Ascii.eqb c "-"%char) eqn:E; [reflexivity | now rewrite E].
Qed.



Lemma lookup_assign_same (k : string) (v : JSValue) out :
  lookup k (assign k v out) = v.
Proof.
  induction out as [|[k' v'] out IH]; simpl.
  - now rewrite String.eqb_refl.
  - destruct (String.eqb k k') eqn:E; simpl.
    + now rewrite String.eqb_refl.
    + now rewrite E.
Qed.

Lemma lookup_assign_other (k k' : string) (v : JSValue) out :
  k <> k' -> lookup k (assign k' v out) = lookup k out.
Proof.
  intros Hne. induction out as [|[k0 v0] out IH]; simpl.
  - apply String.eqb_neq in Hne. now rewrite Hne.
  - destruct (String.eqb k' k0) eqn:E; simpl.
    + apply String.eqb_eq in E. subst k0.
      apply String.eqb_neq in Hne. now rewrite Hne.
    + destruct (String.eqb k k0); [reflexivity | exact IH].
Qed.

(** Reading a key of the normalized object: the raw entries are scanned in
    order and each entry with that normalized key replaces the value. *)
Lemma lookup_normalized (k : string) (l : list (string * JSValue)) acc :
  lookup k (fold_left
              (fun normalized entry =>
                 assign (normalizeKey (fst entry)) (snd entry) normalized)
              l acc)
  = fold_left
      (fun cur entry =>
         if String.eqb k (normalizeKey (fst entry)) then snd entry else cur)
      l (lookup k acc).
Proof.
  revert acc. induction l as [|[k0 v0] l IH]; intros acc; simpl.
  - reflexivity.
  - rewrite IH. f_equal.
    destruct (String.eqb k (normalizeKey k0)) eqn:E.
    + apply String.eqb_eq in E. subst k. apply lookup_assign_same.
    + apply String.eqb_neq in E. now apply lookup_assign_other.
Qed.

Lemma scan_skips (k : string) (l : list (string * JSValue)) (cur : JSValue) :
  (forall e, In e l -> normalizeKey (fst e) <> k) ->
  fold_left
    (fun cur entry =>
       if String.eqb k (normalizeKey (fst entry)) then snd entry else cur)
    l cur = cur.
Proof.
  revert cur. induction l as [|e l IH]; intros cur H; simpl; [reflexivity|].
  assert (String.eqb k (normalizeKey (fst e)) = false) as E.
  { apply String.eqb_neq. intros ->. apply (H e); simpl; auto. }
  rewrite E. apply IH. intros e' Hin. apply H. now right.
Qed.

(** For each of the four keys [loadConfig] reads from the normalized
    document: when several raw keys normalize to it, the last one that
    [Object.entries] enumerates wins; and when no raw key normalizes to it,
    nor to ["__proto__"], it reads as [undefined]. *)
Theorem normalize_keys_last_wins (k : string) :
  In k KNOWN_KEYS ->
  (forall p1 k0 v p2,
      normalizeKey k0 = k ->
      (forall e, In e p2 -> normalizeKey (fst e) <> k) ->
      lookup k (normalize_keys (JObj (p1 ++ (k0, v) :: p2)%list)) = v) /\
  (forall props,
      ModelScope.normalizes_to_proto props = false ->
      (forall e, In e props -> normalizeKey (fst e) <> k) ->
      lookup k (normalize_keys (JObj props)) = JUndefined).
Proof.
  intros _. unfold normalize_keys. simpl. split.
  - intros p1 k0 v p2 Hk Hp2. rewrite lookup_normalized.
    rewrite fold_left_app. simpl. rewrite Hk, String.eqb_refl.
    now apply scan_skips.
  - intros props _ H. rewrite lookup_normalized. now apply scan_skips.
Qed.

Lemma normalize_keys_last_wins_witness :
  lookup "self_healing"
         (normalize_keys
            (JObj ([("self-healing", JObj [("enabled", JBool false)])]
                     ++ ("self_healing", JObj [("enabled", JBool true)])
                     :: [("telemetry", JNull)])%list))
  = JObj [("enabled", JBool true)] /\
  lookup "tracks"
         (normalize_keys
            (JObj [("self-healing", JObj [("enabled", JBool false)]);
                   ("telemetry", JNull)]))
  = JUndefined.
Proof.
  split.
  - destruct (normalize_keys_last_wins "self_healing") as [H _];
      [simpl; auto|].
    apply (H [("self-healing", JObj [("enabled", JBool false)])]
             "self_healing" (JObj [("enabled", JBool true)])
             [("telemetry", JNull)]).
    + reflexivity.
    + intros e [<-|[]]. discriminate.
  - destruct (normalize_keys_last_wins "tracks") as [_ H]; [simpl; auto|].
    apply H; [reflexivity|].
    intros e [<-|[<-|[]]]; discriminate.
Defined.

Lemma loadConfig_by_lookups files1 path1 files2 path2 doc1 doc2 :
  files1 path1 = Parsed doc1 -> files2 path2 = Parsed doc2 ->
  truthy doc1 = true -> typeof_object doc1 = true ->
  truthy doc2 = true -> typeof_object doc2 = true ->
  (forall k, In k KNOWN_KEYS ->
             lookup k (normalize_keys doc1) = lookup k (normalize_keys doc2)) ->
  loadConfig files1 path1 = loadConfig files2 path2.
Proof.
  intros H1 H2 T1 O1 T2 O2 Hk. unfold loadConfig.
  rewrite H1, H2, T1, O1, T2, O2. simpl.
  rewrite !Hk; simpl; auto 10.
Qed.

(** Unknown keys are ignored: removing from the document an entry whose
    normalized key is neither one of the four known keys nor ["__proto__"]
    leaves the loaded configuration unchanged. *)
Theorem loadConfig_ignores_unknown_keys
    files1 path1 files2 path2 (p1 p2 : list (string * JSValue))
    (key : string) (value : JSValue) :
  files1 path1 = Parsed (JObj (p1 ++ (key, value) :: p2)%list) ->
  files2 path2 = Parsed (JObj (p1 ++ p2)%list) ->
  existsb (String.eqb (normalizeKey key)) KNOWN_KEYS = false ->
  normalizeKey key <> "__proto__" ->
  loadConfig files1 path1 = loadConfig files2 path2.
Proof.
  intros H1 H2 Hunknown _.
  eapply loadConfig_by_lookups; eauto.
  intros k Hin. unfold normalize_keys. simpl.
  rewrite !lookup_normalized, !fold_left_app. simpl.
  destruct (String.eqb k (normalizeKey key)) eqn:E; [|reflexivity].
  apply String.eqb_eq in E. subst k.
  assert (existsb (String.eqb (normalizeKey key)) KNOWN_KEYS = true) as C.
  { apply existsb_exists. exists (normalizeKey key).
    split; [exact Hin | apply String.eqb_refl]. }
  congruence.
Qed.

Lemma loadConfig_ignores_unknown_keys_witness :
  loadConfig
    (fun _ => Parsed (JObj ([("tracks", JObj [("bug", JArr [JStr "bug"])])]
                              ++ ("selfHealing", JObj [("enabled", JBool true)])
                              :: [("telemetry", JObj [("enabled", JBool false)])])%list))
    "task-assistant.yml"
  = loadConfig
      (fun _ => Parsed (JObj ([("tracks", JObj [("bug", JArr [JStr "bug"])])]
                                ++ [("telemetry", JObj [("enabled", JBool false)])])%list))
      "task-assistant.yml".
Proof.
  apply (loadConfig_ignores_unknown_keys _ _ _ _
           [("tracks", JObj [("bug", JArr [JStr "bug"])])]
           [("telemetry", JObj [("enabled", JBool false)])]
           "selfHealing" (JObj [("enabled", JBool true)]));
    try reflexivity.
  discriminate.
Defined.

Lemma fold_left_map {A B C : Type} (f : A -> B -> A) (g : C -> B)
      (l : list C) (a : A) :
  fold_left f (map g l) a = fold_left (fun a x => f a (g x)) l a.
Proof. revert a. induction l as [|x l IH]; intros a; simpl; auto. Qed.

Lemma fold_left_ext {A B : Type} (f g : A -> B -> A) (l : list B) (a : A) :
  (forall a b, f a b = g a b) -> fold_left f l a = fold_left g l a.
Proof.
  intros H. revert a. induction l as [|x l IH]; intros a; simpl;
    [reflexivity | now rewrite H, IH].
Qed.

(** Hyphens and underscores in top-level keys are interchangeable: writing
    every key of the document in its normalized form ([self-healing] as
    [self_healing], [milestone-rules] as [milestone_rules]) loads the same
    configuration. *)
Theorem loadConfig_hyphen_underscore
    files1 path1 files2 path2 (props : list (string * JSValue)) :
  files1 path1 = Parsed (JObj props) ->
  files2 path2
    = Parsed (JObj (map (fun e => (normalizeKey (fst e), snd e)) props)) ->
  loadConfig files1 path1 = loadConfig files2 path2.
Proof.
  intros H1 H2. eapply loadConfig_by_lookups; eauto.
  intros k _. f_equal. unfold normalize_keys. simpl.
  rewrite fold_left_map. apply fold_left_ext.
  intros a [k0 v0]. simpl.
  now rewrite normalizeKey_idempotent.
Qed.

Lemma loadConfig_hyphen_underscore_witness :
  loadConfig
    (fun _ => Parsed (JObj [("self-healing", JObj [("enabled", JBool true)]);
                            ("milestone-rules", JObj [("bug", JStr "Sprint")])]))
    "task-assistant.yml"
  = loadConfig
      (fun _ => Parsed
                  (JObj [("self_healing", JObj [("enabled", JBool true)]);
                         ("milestone_rules", JObj [("bug", JStr "Sprint")])]))
      "task-assistant.yml".
Proof.
  apply (loadConfig_hyphen_underscore _ _ _ _
           [("self-healing", JObj [("enabled", JBool true)]);
            ("milestone-rules", JObj [("bug", JStr "Sprint")])]);
    reflexivity.
Defined.

Lemma assign_fresh {V : Type} (key : string) (value : V) out :
  ~ In key (map fst out) -> assign key value out = (out ++ [(key, value)])%list.
Proof.
  induction out as [|[k v] out IH]; simpl; [reflexivity|].
  intros H. destruct (String.eqb key k) eqn:E.
  - apply String.eqb_eq in E. exfalso. apply H. now left.
  - rewrite IH; [reflexivity|]. intros Hin. apply H. now right.
Qed.

(** A loop that assigns the kept entries of a list with distinct keys to a
    record builds the list of kept entries, in order. *)
Lemma fold_assign_distinct {R V : Type} (keep : string * R -> option V)
      (l : list (string * R)) (out : list (string * V)) :
  NoDup (map fst l) ->
  (forall e, In e l -> ~ In (fst e) (map fst out)) ->
  fold_left
    (fun out e => match keep e with
                  | Some v => assign (fst e) v out
                  | None => out
                  end) l out
  = (out ++ flat_map (fun e => match keep e with
                               | Some v => [(fst e, v)]
                               | None => []
                               end) l)%list.
Proof.
  revert out. induction l as [|e l IH]; intros out Hnd Hfresh; simpl.
  - now rewrite app_nil_r.
  - inversion Hnd as [|k ks Hk Hnd']; subst.
    destruct (keep e) as [v|].
    + rewrite assign_fresh by (apply Hfresh; now left).
      rewrite IH; [now rewrite <- app_assoc | exact Hnd' |].
      intros e' Hin. rewrite map_app, in_app_iff. simpl.
      intros [H|[H|[]]].
      * apply (Hfresh e'); [now right | exact H].
      * apply Hk. rewrite H. now apply in_map.
    + apply IH; [exact Hnd'|]. intros e' Hin. apply Hfresh. now right.
Qed.

(** For an object with distinct keys, none of them ["__proto__"],
    [validateTracks] keeps exactly the entries whose value is an array of
    strings, in the order [Object.entries] enumerates them; any other entry
    is dropped on its own. *)
Theorem validateTracks_keeps_valid_entries_in_order
    (props : list (string * JSValue)) :
  NoDup (map fst props) ->
  ModelScope.names_proto props = false ->
  validateTracks (JObj props)
  = Some (flat_map
            (fun e =>
               match snd e with
               | JArr items =>
                   if forallb typeof_string items
                   then [(fst e, strings_of items)] else []
               | _ => []
               end) props).
Proof.
  intros Hnd _. unfold validateTracks. simpl. f_equal.
  rewrite (fold_left_ext _
             (fun out e =>
                match (match snd e with
                       | JArr items =>
                           if forallb typeof_string items
                           then Some (strings_of items) else None
                       | _ => None
                       end) with
                | Some v => assign (fst e) v out
                | None => out
                end)).
  - rewrite fold_assign_distinct; [|exact Hnd | intros e _ []]. simpl.
    apply flat_map_ext. intros [k v]. simpl.
    destruct v; try reflexivity. now destruct (forallb typeof_string items).
  - intros out [k v]. simpl. destruct v; try reflexivity.
    assert (existsb (fun p => negb (typeof_string p)) items
            = negb (forallb typeof_string items)) as ->.
    { induction items as [|p items IH]; simpl; [reflexivity|].
      rewrite IH, negb_andb. reflexivity. }
    now destruct (forallb typeof_string items).
Qed.

Lemma validateTracks_keeps_valid_entries_in_order_witness :
  validateTracks
    (JObj [("bug", JArr [JStr "bug"; JStr "defect"]);
           ("broken", JArr [JStr "x"; JNum 3]);
           ("feature", JStr "enhancement");
           ("docs", JArr [])])
  = Some [("bug", ["bug"; "defect"]); ("docs", [])].
Proof.
  rewrite validateTracks_keeps_valid_entries_in_order;
    [reflexivity | | reflexivity].
  repeat constructor; simpl; intuition discriminate.
Defined.

(** For an object with distinct keys, none of them ["__proto__"],
    [validateMilestoneRules] keeps exactly the entries whose value is a
    string, in the order [Object.entries] enumerates them. *)
Theorem validateMilestoneRules_keeps_strings_in_order
    (props : list (string * JSValue)) :
  NoDup (map fst props) ->
  ModelScope.names_proto props = false ->
  validateMilestoneRules (JObj props)
  = Some (flat_map
            (fun e => match snd e with
                      | JStr title => [(fst e, title)]
                      | _ => []
                      end) props).
Proof.
  intros Hnd _. unfold validateMilestoneRules. simpl. f_equal.
  rewrite (fold_left_ext _
             (fun out e =>
                match (match snd e with
                       | JStr title => Some title
                       | _ => None
                       end) with
                | Some v => assign (fst e) v out
                | None => out
                end)).
  - rewrite fold_assign_distinct; [|exact Hnd | intros e _ []]. simpl.
    apply flat_map_ext. intros [k v]. simpl. now destruct v.
  - intros out [k v]. simpl. now destruct v.
Qed.

Lemma validateMilestoneRules_keeps_strings_in_order_witness :
  validateMilestoneRules
    (JObj [("bug", JStr "Bugfix Sprint");
           ("feature", JObj [("title", JStr "Roadmap")]);
           ("docs", JStr "Docs")])
  = Some [("bug", "Bugfix Sprint"); ("docs", "Docs")].
Proof.
  rewrite validateMilestoneRules_keeps_strings_in_order;
    [reflexivity | | reflexivity].
  repeat constructor; simpl; intuition discriminate.
Defined.

Lemma get_bool_is_object (raw : JSValue) (k : string) (b : bool) :
  get raw k = JBool b -> truthy raw = true.
Proof. destruct raw; simpl; try discriminate; reflexivity. Qed.

(** Self-healing flags are switched on by the boolean [true] only: after
    validation a flag is [true] exactly when the raw section holds the
    boolean [true] under [enabled], [fix_missing_track] or
    [fix_missing_milestone]; strings such as ["true"], numbers and the
    camel-case spellings leave it off. *)
Theorem validateSelfHealing_true_only (raw : JSValue) :
  (enabled (validateSelfHealing raw) = Some true
   <-> get raw "enabled" = JBool true) /\
  (fixMissingTrack (validateSelfHealing raw) = Some true
   <-> get raw "fix_missing_track" = JBool true) /\
  (fixMissingMilestone (validateSelfHealing raw) = Some true
   <-> get raw "fix_missing_milestone" = JBool true).
Proof.
  unfold validateSelfHealing.
  destruct (truthy raw) eqn:T; simpl.
  - repeat split; intros H.
    all: try (now rewrite H).
    all: match goal with
         | H : context [get ?r ?k] |- get ?r ?k = _ =>
             destruct (get r k) as [| |[]| | | |]; simpl in H;
             try discriminate; reflexivity
         end.
  - repeat split; intros H; try discriminate.
    all: apply get_bool_is_object in H; congruence.
Qed.

Lemma telemetry_path_cases (p : JSValue) :
  let result :=
    if (truthy p && negb (typeof_string p))%bool then "telemetry"
    else match p with
         | JStr s => if JsString.truthy s then s else "telemetry"
         | _ => "telemetry"
         end in
  result <> "" /\
  (p = JStr result \/
   (result = "telemetry" /\ forall s, p = JStr s -> s = "")).
Proof.
  assert (D : "telemetry" <> "") by discriminate.
  destruct p as [| |b|n|s|items|props]; simpl.
  - split; [exact D|]. right. split; [reflexivity | discriminate].
  - split; [exact D|]. right. split; [reflexivity | discriminate].
  - destruct b; simpl; (split; [exact D|]); right;
      (split; [reflexivity | discriminate]).
  - destruct (negb (n =? 0)%Z); simpl; (split; [exact D|]); right;
      (split; [reflexivity | discriminate]).
  - rewrite andb_false_r. destruct s as [|c s]; simpl.
    + split; [exact D|]. right. split; [reflexivity|]. now intros s' [= <-].
    + split; [discriminate|]. now left.
  - split; [exact D|]. right. split; [reflexivity | discriminate].
  - split; [exact D|]. right. split; [reflexivity | discriminate].
Qed.

(** Telemetry is switched off by the boolean [false] only, and the
    telemetry path is never empty: it is the raw [path] when that is a
    non-empty string and ["telemetry"] in every other case. *)
Theorem validateTelemetry_defaults (raw : JSValue) :
  (t_enabled (validateTelemetry raw) = Some false
   <-> get raw "enabled" = JBool false) /\
  (exists p, t_path (validateTelemetry raw) = Some p /\ p <> "" /\
             (get raw "path" = JStr p \/
              (p = "telemetry" /\
               forall s, get raw "path" = JStr s -> s = ""))).
Proof.
  unfold validateTelemetry.
  destruct (truthy raw) eqn:T; simpl.
  - split.
    + split; intros H.
      * destruct (get raw "enabled") as [| |[]| | | |]; simpl in H;
          try discriminate; reflexivity.
      * now rewrite H.
    + eexists. split; [|apply (telemetry_path_cases (get raw "path"))].
      now destruct (truthy (get raw "path") && _)%bool.
  - split.
    + split; intros H; [discriminate|].
      apply get_bool_is_object in H. congruence.
    + exists "telemetry". split; [reflexivity|]. split; [discriminate|].
      right. split; [reflexivity|]. intros s Hs.
      destruct raw; simpl in *; discriminate.
Qed.

End ConfigCoverage.

(* ===================================================================== *)
(** * More on the milestone manager *)
(* ===================================================================== *)

Section MilestoneManagerCoverage.
Import Errors Effects MilestoneManager.

(** [ensureMilestone] always starts with the lookup of the open milestones
    and sends at most one more request, the creation of the desired title;
    it never updates an issue or a label. *)
Theorem ensureMilestone_requests
    (w : World) (ref : RepoRef) (t : string) (log : list Call) :
  snd (ensureMilestone w ref t log)
    = (log ++ [ListMilestones (owner ref) (repo ref) "open"])%list \/
  snd (ensureMilestone w ref t log)
    = (log ++ [ListMilestones (owner ref) (repo ref) "open";
               CreateMilestone (owner ref) (repo ref) t])%list.
Proof.
  cbv [ensureMilestone findMilestoneByTitle listMilestones
       bind try_catch request ret throw].
  destruct (listMilestones_response w (owner ref) (repo ref)) as [err|ms];
    simpl; [now left|].
  destruct (first_with_title ms t) as [n|]; simpl; [now left|].
  right. rewrite <- app_assoc.
  now destruct (createMilestone_response w (owner ref) (repo ref) t).
Qed.

(** When the lookup succeeds, no open milestone has the desired title and
    the creation succeeds, [ensureMilestone] returns the number of the
    created milestone, after exactly the lookup and the creation. *)
Theorem ensureMilestone_creates_when_absent
    (w : World) (ref : RepoRef) (t : string) (log : list Call)
    (ms : list MilestoneData) (n : Z) :
  listMilestones_response w (owner ref) (repo ref) = inr ms ->
  (forall m, In m ms -> title m <> t) ->
  createMilestone_response w (owner ref) (repo ref) t = inr n ->
  ensureMilestone w ref t log
    = (inr n, (log ++ [ListMilestones (owner ref) (repo ref) "open";
                       CreateMilestone (owner ref) (repo ref) t])%list).
Proof.
  intros Hl Hno Hc. apply first_with_title_none in Hno.
  cbv [ensureMilestone findMilestoneByTitle listMilestones
       bind try_catch request ret throw].
  rewrite Hl, Hno, Hc. now rewrite <- app_assoc.
Qed.

Lemma ensureMilestone_creates_when_absent_witness :
  ensureMilestone ScenarioA.all_succeed (mkRepoRef "acme" "widgets")
                  "Bugfix Sprint" []
  = (inr 7%Z, [ListMilestones "acme" "widgets" "open";
               CreateMilestone "acme" "widgets" "Bugfix Sprint"]).
Proof.
  apply (ensureMilestone_creates_when_absent
           ScenarioA.all_succeed (mkRepoRef "acme" "widgets")
           "Bugfix Sprint" [] [] 7%Z).
  - reflexivity.
  - intros m [].
  - reflexivity.
Defined.

(** What a user sees of a failed milestone request: the non-debug display
    of the error thrown names the operation, the repository, title or
    numbers, under the tag [[GITHUB-API]], and shows nothing of the
    original failure. *)
Theorem milestone_failure_display
    (w : World) (ref : RepoRef) (t : string)
    (issueNumber milestoneNumber : Z) (log : list Call) (err : Unknown)
    (JSON_stringify : list (string * JsValue.JSValue) -> string) :
  (listMilestones_response w (owner ref) (repo ref) = inl err ->
   exists e,
     fst (ensureMilestone w ref t log) = inl (UTaskAssistantError e) /\
     toDisplay JSON_stringify e false
     = "[GITHUB-API] Failed to list milestones for "
         ++ owner ref ++ "/" ++ repo ref) /\
  (forall ms,
      listMilestones_response w (owner ref) (repo ref) = inr ms ->
      (forall m, In m ms -> title m <> t) ->
      createMilestone_response w (owner ref) (repo ref) t = inl err ->
      exists e,
        fst (ensureMilestone w ref t log) = inl (UTaskAssistantError e) /\
        toDisplay JSON_stringify e false
        = "[GITHUB-API] Failed to create milestone '" ++ t ++ "'") /\
  (update_response w (owner ref) (repo ref) issueNumber milestoneNumber
   = inl err ->
   exists e,
     fst (attachMilestoneToIssue w ref issueNumber milestoneNumber log)
     = inl (UTaskAssistantError e) /\
     toDisplay JSON_stringify e false
     = "[GITHUB-API] Failed to attach milestone #" ++ show milestoneNumber
         ++ " to issue #" ++ show issueNumber).
Proof.
  split; [|split].
  - intros H.
    cbv [ensureMilestone findMilestoneByTitle listMilestones
         bind try_catch request ret throw].
    rewrite H. eexists. split; reflexivity.
  - intros ms Hl Hno Hc. apply first_with_title_none in Hno.
    cbv [ensureMilestone findMilestoneByTitle listMilestones
         bind try_catch request ret throw].
    rewrite Hl, Hno, Hc. eexists. split; reflexivity.
  - intros H. cbv [attachMilestoneToIssue try_catch request throw].
    rewrite H. eexists. split; reflexivity.
Qed.

Lemma milestone_failure_display_witness :
  exists e,
    fst (attachMilestoneToIssue
           (mkWorld (fun _ _ _ _ => inr tt) (fun _ _ => inr [])
                    (fun _ _ _ => inr 7%Z)
                    (fun _ _ _ _ =>
                       inl (UError "token ghp_secret rejected" "at fetch"))
                    (fun _ _ => inr None) "")
           (mkRepoRef "acme" "widgets") 42 7 [])
    = inl (UTaskAssistantError e) /\
    toDisplay (fun _ => "{}") e false
    = "[GITHUB-API] Failed to attach milestone #7 to issue #42".
Proof.
  destruct (milestone_failure_display
              (mkWorld (fun _ _ _ _ => inr tt) (fun _ _ => inr [])
                       (fun _ _ _ => inr 7%Z)
                       (fun _ _ _ _ =>
                          inl (UError "token ghp_secret rejected" "at fetch"))
                       (fun _ _ => inr None) "")
              (mkRepoRef "acme" "widgets") "Bugfix Sprint" 42 7 []
              (UError "token ghp_secret rejected" "at fetch")
              (fun _ => "{}"))
    as (_ & _ & H).
  apply H. reflexivity.
Defined.

End MilestoneManagerCoverage.

(* ===================================================================== *)
(** * More on the run *)
(* ===================================================================== *)

Section RunCoverage.
Import Types ConfigTypes Errors Effects Index Traces.

Lemma stops_ret {A : Type} (w : World) (a : A) (log : list Call) :
  stops_at_failure w log (ret a log).
Proof. exists []. simpl. now rewrite app_nil_r. Qed.

Lemma stops_request {A : Type} (w : World) (c : Call)
      (response : Unknown + A) (log : list Call) :
  call_fails w c = is_failure response ->
  stops_at_failure w log (request c response log).
Proof.
  intros H. exists [c]. split; [reflexivity|].
  destruct response as [err|a]; simpl in *.
  - exists [], c. repeat split; auto.
  - repeat constructor; exact H.
Qed.

Lemma stops_rethrow {A : Type} (w : World) (c : Call)
      (response : Unknown + A) (wrap : Unknown -> Unknown) (log : list Call) :
  call_fails w c = is_failure response ->
  stops_at_failure w log
    (try_catch (request c response) (fun err => throw (wrap err)) log).
Proof.
  intros H. exists [c]. unfold try_catch, request, throw.
  destruct response as [err|a]; simpl in *; (split; [reflexivity|]).
  - exists [], c. repeat split; auto.
  - repeat constructor; exact H.
Qed.

Lemma stops_bind {A B : Type} (w : World) (m : Eff A) (f : A -> Eff B)
      (log : list Call) :
  stops_at_failure w log (m log) ->
  (forall a log', stops_at_failure w log' (f a log')) ->
  stops_at_failure w log (bind m f log).
Proof.
  intros (new1 & Hlog1 & H1) Hf. unfold bind.
  destruct (m log) as [[err|a] log1]; simpl in *.
  - exists new1. simpl. auto.
  - destruct (Hf a log1) as (new2 & Hlog2 & H2).
    exists (new1 ++ new2)%list. subst log1. rewrite app_assoc.
    split; [exact Hlog2|].
    destruct (fst (f a (log ++ new1)%list)) as [err|b].
    + destruct H2 as (pre & c & -> & Hpre & Hc).
      exists (new1 ++ pre)%list, c. rewrite app_assoc.
      repeat split; auto. apply Forall_app; auto.
    + apply Forall_app; auto.
Qed.

Lemma ensureMilestone_stops w ref t log :
  stops_at_failure w log (MilestoneManager.ensureMilestone w ref t log).
Proof.
  unfold MilestoneManager.ensureMilestone, MilestoneManager.findMilestoneByTitle.
  apply stops_bind.
  - apply stops_bind.
    + unfold MilestoneManager.listMilestones. now apply stops_rethrow.
    + intros. apply stops_ret.
  - intros [n|] log'; [apply stops_ret | now apply stops_rethrow].
Qed.

Lemma selfHeal_stops w config o r issue c log :
  stops_at_failure w log (selfHeal w config o r issue c log).
Proof.
  unfold selfHeal. apply stops_bind.
  - unfold fix_track_label.
    destruct (trackLabelToApply c) as [label|]; [|apply stops_ret].
    destruct (_ && _)%bool; [|apply stops_ret].
    apply stops_bind; [now apply stops_request | intros; apply stops_ret].
  - intros c' log'. unfold enforce_milestone.
    destruct (_ && _)%bool; [|apply stops_ret].
    destruct (MilestoneRules.inferMilestoneTitle config (track c'))
      as [desired|]; [|apply stops_ret].
    destruct (_ && _)%bool; [|apply stops_ret].
    apply stops_bind; [apply ensureMilestone_stops|].
    intros n log''. apply stops_bind; [|intros; apply stops_ret].
    unfold MilestoneManager.attachMilestoneToIssue. now apply stops_rethrow.
Qed.

Lemma process_stops w s config :
  stops_at_failure w [] (process w s config []).
Proof.
  unfold process. destruct (payload_issue s) as [issue|]; [|apply stops_ret].
  apply stops_bind; [apply selfHeal_stops|].
  intros [c final] log'. apply stops_bind; [|intros; apply stops_ret].
  unfold write_telemetry. destruct (_ && _)%bool; [|apply stops_ret].
  apply stops_bind; [now apply stops_request | intros; apply stops_ret].
Qed.

Lemma run_outcome w s :
  (exists message, fst (run w s) = SetFailed message) <->
  is_failure
    (fst (process w s (Config.loadConfig (files s) (config_path s)) []))
  = true.
Proof.
  unfold run.
  destruct (process w s _ []) as [[err|[result|]] log]; simpl.
  - split; [reflexivity|]. intros _.
    destruct (as_Error err) as [[m st]|]; eexists; reflexivity.
  - split; [intros [m H]; discriminate | discriminate].
  - split; [intros [m H]; discriminate | discriminate].
Qed.

Lemma last_is_the_failure (w : World) (pre pre' post' : list Call)
      (c c' : Call) :
  (pre ++ [c] = pre' ++ c' :: post')%list ->
  Forall (fun x => call_fails w x = false) pre ->
  call_fails w c' = true ->
  post' = [].
Proof.
  revert pre'. induction pre as [|a pre IH]; intros pre' Heq Hok Hc'.
  - destruct pre' as [|b pre']; simpl in Heq.
    + now injection Heq as _ <-.
    + injection Heq as _ Heq. now destruct pre'.
  - inversion Hok as [|? ? Ha Hok']; subst.
    destruct pre' as [|b pre']; simpl in Heq.
    + injection Heq as -> _. congruence.
    + injection Heq as _ Heq. exact (IH pre' Heq Hok' Hc').
Qed.

(** A run fails exactly when one of the requests it sent was rejected, and
    it sends nothing after a rejected request: no retry, no further
    corrective step, no telemetry. *)
Theorem run_stops_at_first_failure (w : World) (s : Surroundings) :
  ((exists message, fst (run w s) = SetFailed message) <->
   (exists c, In c (snd (run w s)) /\ call_fails w c = true)) /\
  (forall pre c post,
      snd (run w s) = (pre ++ c :: post)%list ->
      call_fails w c = true -> post = []).
Proof.
  rewrite run_outcome, run_log.
  destruct (process_stops w s (Config.loadConfig (files s) (config_path s)))
    as (new & Hlog & H).
  simpl in Hlog. rewrite Hlog.
  destruct (fst (process w s _ [])) as [err|res]; simpl.
  - destruct H as (pre0 & c0 & -> & Hpre & Hc0). split.
    + split; [|reflexivity]. intros _. exists c0. split; [|exact Hc0].
      apply in_or_app. right. now left.
    + intros pre c post Heq Hc.
      exact (last_is_the_failure w pre0 pre post c0 c Heq Hpre Hc).
  - rewrite Forall_forall in H. split.
    + split; [discriminate|]. intros (c & Hin & Hc).
      rewrite (H c Hin) in Hc. discriminate.
    + intros pre c post Heq Hc.
      assert (In c new) as Hin by (rewrite Heq; apply in_or_app; right; now left).
      rewrite (H c Hin) in Hc. discriminate.
Qed.

Lemma process_after_heal w s config issue c final log1 :
  payload_issue s = Some issue ->
  selfHeal w config (repo_owner s) (repo_name s) issue
           (IssueClassifier.classifyIssue config (labels_of issue)) []
    = (inr (c, final), log1) ->
  process w s config []
  = if telemetryEnabled config s then
      (match writeTelemetry_response
               w (number issue) (telemetry_payload s issue c final) with
       | inl err => inl err
       | inr path =>
           inr (Some (mkResult (track c) (actions c) final
                               (if JsString.truthy_opt path then path
                                else None)))
       end,
       (log1 ++ [WriteTelemetry (number issue)
                                (telemetry_payload s issue c final)])%list)
    else (inr (Some (mkResult (track c) (actions c) final None)), log1).
Proof.
  intros Hi Hh. unfold process, bind. rewrite Hi, Hh.
  unfold write_telemetry, telemetryEnabled, bind, request, ret.
  destruct (_ && ORCHESTRATOR_TELEMETRY_ENABLED s)%bool; [|reflexivity].
  now destruct (writeTelemetry_response w _ _).
Qed.

(** The shape of every run, for the configuration it loads. *)
Lemma run_anatomy w s :
  let config := Config.loadConfig (files s) (config_path s) in
  (payload_issue s = None /\ run w s = (Returned, [])) \/
  (exists issue log1,
      payload_issue s = Some issue /\
      Forall (fun c => is_remote c = true) log1 /\
      ((exists message, run w s = (SetFailed message, log1)) \/
       (exists c final,
           selfHeal w config (repo_owner s) (repo_name s) issue
                    (IssueClassifier.classifyIssue config (labels_of issue)) []
             = (inr (c, final), log1) /\
           ((telemetryEnabled config s = false /\
             run w s
               = (Output (mkResult (track c) (actions c) final None), log1)) \/
            (telemetryEnabled config s = true /\
             snd (run w s)
               = (log1 ++ [WriteTelemetry
                             (number issue)
                             (telemetry_payload s issue c final)])%list /\
             forall result,
               fst (run w s) = Output result ->
               exists path,
                 result = mkResult (track c) (actions c) final
                                   (if JsString.truthy_opt path then path
                                    else None)))))).
Proof.
  intros config. unfold run. fold config.
  destruct (payload_issue s) as [issue|] eqn:Hi.
  2:{ left. unfold process. rewrite Hi. auto. }
  right.
  pose proof (selfHeal_extension w config (repo_owner s) (repo_name s) issue
                (IssueClassifier.classifyIssue config (labels_of issue)) [])
    as (new & Hlog & Hremote & _).
  destruct (selfHeal w config (repo_owner s) (repo_name s) issue
              (IssueClassifier.classifyIssue config (labels_of issue)) [])
    as [[err|[c final]] log1] eqn:Hheal; simpl in Hlog; subst log1.
  - exists issue, new. split; [reflexivity|]. split; [exact Hremote|]. left.
    rewrite (process_aborts w s config issue err new Hi Hheal).
    destruct (as_Error err) as [[m st]|]; eexists; reflexivity.
  - exists issue, new. split; [reflexivity|]. split; [exact Hremote|]. right.
    exists c, final. split; [exact Hheal|].
    rewrite (process_after_heal w s config issue c final new Hi Hheal).
    destruct (telemetryEnabled config s); [right | left; auto].
    split; [reflexivity|].
    destruct (writeTelemetry_response w _ _) as [err|path]; simpl.
    + split; [now destruct (as_Error err) as [[m st]|]|].
      intros result H. destruct (as_Error err) as [[m st]|]; discriminate.
    + split; [reflexivity|]. intros result [= <-]. now exists path.
Qed.

(** The run ends in the early return exactly when the event carries no
    issue; it then sends no request at all. *)
Theorem run_returns_iff_no_issue (w : World) (s : Surroundings) :
  (fst (run w s) = Returned <-> payload_issue s = None) /\
  (payload_issue s = None -> snd (run w s) = []).
Proof.
  destruct (run_anatomy w s)
    as [[Hi Hrun]|(issue & log1 & Hi & _ & H)].
  - rewrite Hrun, Hi. simpl. repeat split; auto.
  - rewrite Hi. split; [|discriminate]. split; [|discriminate].
    destruct H as [[m ->]|(c & final & _ & [[_ ->]|(_ & _ & H)])];
      simpl; try discriminate.
    intros Hr. exfalso.
    destruct (fst (run w s)) eqn:E; try discriminate.
    clear Hr. revert E. unfold run.
    destruct (process w s _ []) as [[err|[result|]] log] eqn:Hp; simpl;
      try discriminate.
    + now destruct (as_Error err) as [[m st]|].
    + intros _. unfold process in Hp. rewrite Hi in Hp. unfold bind in Hp.
      destruct (selfHeal w _ _ _ _ _ []) as [[err|[c' final']] l]; try discriminate.
      destruct (write_telemetry w s _ issue c' final' l) as [[err|tf] l'];
        discriminate.
Qed.

(** Telemetry is written at most once and only as the last request of a
    run: every request before it is a remote request of the self-healing
    steps. *)
Theorem telemetry_is_written_last (w : World) (s : Surroundings) :
  exists remote tail,
    snd (run w s) = (remote ++ tail)%list /\
    Forall (fun c => is_remote c = true) remote /\
    (tail = [] \/ exists n payload, tail = [WriteTelemetry n payload]).
Proof.
  destruct (run_anatomy w s)
    as [[Hi Hrun]|(issue & log1 & Hi & Hrem & H)].
  - exists [], []. rewrite Hrun. simpl. auto.
  - destruct H as [[m ->]|(c & final & _ & [[_ ->]|(_ & -> & _)])]; simpl.
    + exists log1, []. rewrite app_nil_r. auto.
    + exists log1, []. rewrite app_nil_r. auto.
    + exists log1, [WriteTelemetry (number issue)
                                   (telemetry_payload s issue c final)].
      repeat split; auto. right. now eexists; eexists.
Qed.

(** The payload handed to the persistence collaborator agrees with the
    output of the run: same track, same actions (twice: in the
    classification and at top level), same final milestone; it has version
    1, event ["issue_event"] and is keyed by the issue number. *)
Theorem telemetry_matches_output
    (w : World) (s : Surroundings) (result : TaskAssistantResult)
    (n : Z) (payload : TelemetryPayload) :
  fst (run w s) = Output result ->
  In (WriteTelemetry n payload) (snd (run w s)) ->
  tp_version payload = 1%Z /\ tp_event payload = "issue_event" /\
  tp_actions payload = Some (r_actions result) /\
  (exists c, tp_classification payload = Some c /\
             track c = r_track result /\ actions c = r_actions result) /\
  (exists info issue,
      tp_issue payload = Some info /\ payload_issue s = Some issue /\
      ti_milestone info = r_milestone result /\
      ti_number info = n /\ n = number issue).
Proof.
  intros Hout Hin.
  destruct (run_anatomy w s)
    as [[Hi Hrun]|(issue & log1 & Hi & Hrem & H)].
  - rewrite Hrun in Hin. destruct Hin.
  - rewrite Forall_forall in Hrem.
    destruct H as [[m Hrun]|(c & final & _ & [[_ Hrun]|(_ & Hlog & Hres)])].
    + rewrite Hrun in Hout. discriminate.
    + rewrite Hrun in Hin. simpl in Hin.
      specialize (Hrem _ Hin). discriminate.
    + rewrite Hlog in Hin. apply in_app_or in Hin as [Hin|[Hin|[]]].
      * specialize (Hrem _ Hin). discriminate.
      * injection Hin as <- <-.
        destruct (Hres result Hout) as (path & ->). simpl.
        repeat split; auto.
        -- now exists c.
        -- eexists; exists issue. repeat split; auto.
Qed.

Lemma telemetry_matches_output_witness :
  exists payload,
    In (WriteTelemetry 42 payload)
       (snd (run ScenarioA.all_succeed
                 (ScenarioA.surroundings ScenarioA.snake_case_document))) /\
    tp_actions payload = Some ["apply-track-label:track:bug"].
Proof.
  eexists. split; [vm_compute; right; left; reflexivity|].
  apply (telemetry_matches_output
           ScenarioA.all_succeed
           (ScenarioA.surroundings ScenarioA.snake_case_document)
           (mkResult (Some "bug") ["apply-track-label:track:bug"] None
                     (Some "telemetry/issue-42.json")) 42).
  - reflexivity.
  - vm_compute. right. left. reflexivity.
Defined.

(** With telemetry switched off (by the configuration or by the
    environment) nothing is handed to the persistence collaborator and the
    output has [telemetryFile = null]; and in no run is the reported
    telemetry file the empty string. *)
Theorem telemetry_switch (w : World) (s : Surroundings) :
  (telemetryEnabled (Config.loadConfig (files s) (config_path s)) s = false ->
   Forall (fun c => is_telemetry_write c = false) (snd (run w s)) /\
   forall result, fst (run w s) = Output result ->
                  r_telemetryFile result = None) /\
  (forall result, fst (run w s) = Output result ->
                  r_telemetryFile result <> Some "").
Proof.
  destruct (run_anatomy w s)
    as [[Hi Hrun]|(issue & log1 & Hi & Hrem & H)].
  - rewrite Hrun. simpl. repeat split; auto; discriminate.
  - assert (Hlog1 : Forall (fun c => is_telemetry_write c = false) log1).
    { eapply Forall_impl; [|exact Hrem]. intros a. apply remote_not_telemetry. }
    destruct H as [[m ->]|(c & final & _ & [[Hoff ->]|(Hon & Hlog & Hres)])];
      simpl.
    + repeat split; auto; discriminate.
    + repeat split; auto.
      * now intros result [= <-].
      * intros result [= <-]. discriminate.
    + split; [rewrite Hon; discriminate|].
      intros result Hout. destruct (Hres result Hout) as (path & ->). simpl.
      destruct path as [[|ch p]|]; simpl; discriminate.
Qed.

Lemma telemetry_switch_witness :
  Forall (fun c => is_telemetry_write c = false)
         (snd (run ScenarioA.all_succeed
                   (mkSurroundings
                      "" (fun _ => Config.Parsed ScenarioA.snake_case_document)
                      (Some ScenarioA.issue) "acme" "widgets" false ""))).
Proof.
  destruct (telemetry_switch
              ScenarioA.all_succeed
              (mkSurroundings
                 "" (fun _ => Config.Parsed ScenarioA.snake_case_document)
                 (Some ScenarioA.issue) "acme" "widgets" false ""))
    as [H _].
  apply H. reflexivity.
Defined.

Lemma run_output w s result :
  fst (run w s) = Output result <->
  fst (process w s (Config.loadConfig (files s) (config_path s)) [])
  = inr (Some result).
Proof.
  unfold run.
  destruct (process w s _ []) as [[err|[res|]] log]; simpl.
  - destruct (as_Error err) as [[m st]|]; split; discriminate.
  - split; intros [= <-]; reflexivity.
  - split; discriminate.
Qed.

Lemma loadConfig_enabled files path :
  truthy_flag (enabled (selfHealing_of (Config.loadConfig files path))) = true ->
  exists doc,
    files path = Config.Parsed doc /\
    JsValue.get (JsValue.lookup "self_healing" (Config.normalize_keys doc))
                "enabled" = JsValue.JBool true.
Proof.
  unfold Config.loadConfig.
  destruct (files path) as [|err|doc]; try discriminate.
  destruct (negb (JsValue.truthy doc) || negb (JsValue.typeof_object doc))%bool;
    [discriminate|].
  unfold selfHealing_of. cbn [selfHealing]. unfold Config.validateSelfHealing.
  intros H. exists doc. split; [reflexivity|].
  destruct (JsValue.truthy _); simpl in H; [|discriminate].
  destruct (JsValue.get _ "enabled") as [| |[]| | | |]; simpl in H;
    try discriminate; reflexivity.
Qed.

(** Self-healing needs the boolean [true] under [self_healing.enabled] (or
    [self-healing.enabled]) of the configuration file: with no readable
    file, or with a document that has no top-level key normalizing to
    ["__proto__"] and holds anything else there, the run sends no remote
    request and outputs no action. *)
Theorem run_needs_boolean_enabled (w : World) (s : Surroundings) :
  (forall doc,
      files s (config_path s) = Config.Parsed doc ->
      ModelScope.normalizes_to_proto (JsValue.entries doc) = false /\
      JsValue.get (JsValue.lookup "self_healing" (Config.normalize_keys doc))
                  "enabled" <> JsValue.JBool true) ->
  Forall (fun c => is_remote c = false) (snd (run w s)) /\
  (forall result, fst (run w s) = Output result -> r_actions result = []).
Proof.
  intros Hdoc.
  set (config := Config.loadConfig (files s) (config_path s)).
  assert (Hoff : truthy_flag (enabled (selfHealing_of config)) = false).
  { destruct (truthy_flag _) eqn:E; [|reflexivity].
    apply loadConfig_enabled in E as (doc & Hfile & Hget).
    exfalso. exact (proj2 (Hdoc doc Hfile) Hget). }
  rewrite run_log. fold config.
  destruct (payload_issue s) as [issue|] eqn:Hi.
  - destruct (process_completes w s config issue
                (IssueClassifier.classifyIssue config (labels_of issue))
                (current_milestone_title issue) [] Hi
                (selfHeal_disabled w config _ _ issue _ [] Hoff))
      as (tail & Hlog & Htail & Hres).
    simpl in Hlog. rewrite Hlog. split; [exact Htail|].
    intros result Hout. apply run_output in Hout. fold config in Hout.
    destruct (Hres result Hout) as (_ & -> & _).
    apply classifyIssue_actions.
  - unfold process. rewrite Hi. simpl. split; [constructor|].
    intros result Hout. apply run_output in Hout. fold config in Hout.
    unfold process in Hout. rewrite Hi in Hout. discriminate.
Qed.

Lemma run_needs_boolean_enabled_witness :
  Forall (fun c => is_remote c = false)
         (snd (run ScenarioA.all_succeed
                   (ScenarioA.surroundings
                      (JsValue.JObj
                         [("tracks",
                           JsValue.JObj [("bug", JsValue.JArr [JsValue.JStr "bug"])]);
                          ("self_healing",
                           JsValue.JObj
                             [("enabled", JsValue.JStr "true");
                              ("fix_missing_track", JsValue.JBool true)])])))).
Proof.
  apply run_needs_boolean_enabled.
  intros doc [= <-]. split; [reflexivity|]. vm_compute. discriminate.
Defined.

Lemma enforce_milestone_loaded files path w o r issue c log :
  enforce_milestone w (Config.loadConfig files path) o r issue c log
  = (inr (c, current_milestone_title issue), log).
Proof.
  unfold enforce_milestone. rewrite loadConfig_has_no_milestone_rule.
  now destruct (_ && _)%bool.
Qed.

(** With a configuration loaded from a file, whatever the file holds, the
    run never looks up, creates or attaches a milestone: the only requests
    are the label request and the telemetry write, the milestone it
    outputs is the one the issue already had, and the only action it can
    record is the label one. *)
Theorem run_sends_no_milestone_request (w : World) (s : Surroundings) :
  Forall (fun c => match c with
                   | AddLabels _ _ _ _ | WriteTelemetry _ _ => True
                   | _ => False
                   end) (snd (run w s)) /\
  (forall result issue,
      fst (run w s) = Output result -> payload_issue s = Some issue ->
      r_milestone result = current_milestone_title issue /\
      (r_actions result = [] \/
       exists T, r_actions result = ["apply-track-label:track:" ++ T])).
Proof.
  set (config := Config.loadConfig (files s) (config_path s)).
  assert (Hp : forall issue, payload_issue s = Some issue ->
     Forall (fun c => match c with
                      | AddLabels _ _ _ _ | WriteTelemetry _ _ => True
                      | _ => False
                      end) (snd (process w s config [])) /\
     forall result, fst (process w s config []) = inr (Some result) ->
       r_milestone result = current_milestone_title issue /\
       (r_actions result = [] \/
        exists T, r_actions result = ["apply-track-label:track:" ++ T])).
  { intros issue Hi. unfold process. rewrite Hi.
    unfold selfHeal, bind, fix_track_label.
    destruct (classifyIssue_cases config (labels_of issue))
      as [(T & HT & _ & ->)| ->]; simpl.
    - destruct (_ && _)%bool; simpl.
      + unfold request, ret.
        destruct (addLabels_response w _ _ _ _) as [err|[]]; simpl.
        * split; [repeat constructor | discriminate].
        * unfold config at 1 3. rewrite enforce_milestone_loaded.
          unfold write_telemetry, bind, request, ret.
          destruct (_ && ORCHESTRATOR_TELEMETRY_ENABLED s)%bool; simpl.
          -- destruct (writeTelemetry_response w _ _) as [err|path]; simpl.
             ++ split; [repeat constructor | discriminate].
             ++ split; [repeat constructor|].
                intros result [= <-]. simpl. split; [reflexivity|].
                right. now exists T.
          -- split; [repeat constructor|].
             intros result [= <-]. simpl. split; [reflexivity|].
             right. now exists T.
      + unfold ret. unfold config at 1 3. rewrite enforce_milestone_loaded.
        unfold write_telemetry, bind, request, ret.
        destruct (_ && ORCHESTRATOR_TELEMETRY_ENABLED s)%bool; simpl.
        * destruct (writeTelemetry_response w _ _) as [err|path]; simpl.
          -- split; [repeat constructor | discriminate].
          -- split; [repeat constructor|].
             intros result [= <-]. simpl. auto.
        * split; [repeat constructor|].
          intros result [= <-]. simpl. auto.
    - unfold ret. unfold config at 1 3. rewrite enforce_milestone_loaded.
      unfold write_telemetry, bind, request, ret.
      destruct (_ && ORCHESTRATOR_TELEMETRY_ENABLED s)%bool; simpl.
      + destruct (writeTelemetry_response w _ _) as [err|path]; simpl.
        * split; [repeat constructor | discriminate].
        * split; [repeat constructor|].
          intros result [= <-]. simpl. auto.
      + split; [repeat constructor|].
        intros result [= <-]. simpl. auto. }
  rewrite run_log. fold config. split.
  - destruct (payload_issue s) as [issue|] eqn:Hi.
    + exact (proj1 (Hp issue eq_refl)).
    + unfold process. rewrite Hi. constructor.
  - intros result issue Hout Hi. apply run_output in Hout.
    exact (proj2 (Hp issue Hi) result Hout).
Qed.

Lemma fix_track_label_result w config o r issue c log c' :
  fst (fix_track_label w config o r issue c log) = inr c' ->
  (c' = c /\ snd (fix_track_label w config o r issue c log) = log) \/
  (exists label,
      trackLabelToApply c = Some label /\
      c' = push_action c ("apply-track-label:" ++ label) /\
      snd (fix_track_label w config o r issue c log)
      = (log ++ [AddLabels o r (number issue) [label]])%list /\
      addLabels_response w o r (number issue) [label] = inr tt).
Proof.
  unfold fix_track_label.
  destruct (trackLabelToApply c) as [label|]; [|intros [= <-]; now left].
  destruct (_ && _)%bool; [|intros [= <-]; now left].
  unfold bind, request, ret.
  destruct (addLabels_response w o r (number issue) [label]) as [err|[]] eqn:E;
    simpl; [discriminate|].
  intros [= <-]. right. now exists label.
Qed.

Lemma enforce_milestone_result w config o r issue c log c' final :
  fst (enforce_milestone w config o r issue c log) = inr (c', final) ->
  (c' = c /\ final = current_milestone_title issue /\
   snd (enforce_milestone w config o r issue c log) = log) \/
  (exists d n,
      MilestoneRules.inferMilestoneTitle config (track c) = Some d /\
      c' = push_action c ("set-milestone:" ++ d) /\ final = Some d /\
      In (UpdateIssue o r (number issue) n)
         (snd (enforce_milestone w config o r issue c log)) /\
      update_response w o r (number issue) n = inr tt).
Proof.
  unfold enforce_milestone.
  destruct (_ && _)%bool; [|intros [= <- <-]; now left].
  destruct (MilestoneRules.inferMilestoneTitle config (track c))
    as [desired|]; [|intros [= <- <-]; now left].
  destruct (_ && _)%bool; [|intros [= <- <-]; now left].
  cbv [MilestoneManager.ensureMilestone MilestoneManager.findMilestoneByTitle
       MilestoneManager.listMilestones MilestoneManager.attachMilestoneToIssue
       bind try_catch request ret throw MilestoneManager.owner
       MilestoneManager.repo].
  destruct (listMilestones_response w o r) as [err|ms]; [discriminate|].
  destruct (MilestoneManager.first_with_title ms desired) as [n|].
  - destruct (update_response w o r (number issue) n) as [err|[]] eqn:Eu;
      simpl; [discriminate|].
    intros [= <- <-]. right. exists desired, n. repeat split; auto.
    apply in_or_app. right. now left.
  - destruct (createMilestone_response w o r desired) as [err|n];
      [discriminate|].
    destruct (update_response w o r (number issue) n) as [err|[]] eqn:Eu;
      simpl; [discriminate|].
    intros [= <- <-]. right. exists desired, n. repeat split; auto.
    apply in_or_app. right. now left.
Qed.

(** Successful self-healing never rewrites what the classifier decided: the
    track, the label to apply and the violations are unchanged, and the
    actions only grow, by at most the label action followed by the
    milestone action.  An action is recorded only for a request that was
    sent and answered successfully, and the final milestone title changes
    only together with the milestone action. *)
Theorem selfHeal_only_appends_actions
    (w : World) (config : TaskAssistantConfig) (o r : string) (issue : Issue)
    (c c' : IssueClassification) (final : option string) (log : list Call) :
  fst (selfHeal w config o r issue c log) = inr (c', final) ->
  track c' = track c /\ trackLabelToApply c' = trackLabelToApply c /\
  violations c' = violations c /\
  exists applied enforced,
    actions c' = (actions c ++ applied ++ enforced)%list /\
    (applied = [] \/
     exists label,
       applied = ["apply-track-label:" ++ label] /\
       In (AddLabels o r (number issue) [label])
          (snd (selfHeal w config o r issue c log)) /\
       addLabels_response w o r (number issue) [label] = inr tt) /\
    ((enforced = [] /\ final = current_milestone_title issue) \/
     exists d n,
       enforced = ["set-milestone:" ++ d] /\ final = Some d /\
       In (UpdateIssue o r (number issue) n)
          (snd (selfHeal w config o r issue c log)) /\
       update_response w o r (number issue) n = inr tt).
Proof.
  unfold selfHeal, bind.
  pose proof (fix_track_label_result w config o r issue c log) as Hfix.
  pose proof (enforce_milestone_extension w config o r issue) as Hext.
  destruct (fix_track_label w config o r issue c log) as [[err|c1] log1];
    simpl in *; [discriminate|].
  intros Hen.
  pose proof (enforce_milestone_result w config o r issue c1 log1 c' final Hen)
    as Hres.
  destruct (Hext c1 log1) as (new2 & Hlog2 & _).
  destruct (Hfix c1 eq_refl) as [[-> ->]|(label & Hl & -> & -> & Hok)];
    destruct Hres as [(-> & -> & _)|(d & n & _ & -> & -> & Hin & Hu)];
    simpl; repeat split; auto.
  - exists [], []. rewrite app_nil_r. repeat split; auto.
  - exists [], ["set-milestone:" ++ d]. repeat split; auto.
    right. now exists d, n.
  - exists ["apply-track-label:" ++ label], []. repeat split; auto.
    right. exists label. repeat split; auto.
    rewrite Hlog2. apply in_or_app. left. apply in_or_app. right. now left.
  - exists ["apply-track-label:" ++ label], ["set-milestone:" ++ d].
    rewrite <- app_assoc. repeat split; auto.
    + right. exists label. repeat split; auto.
      rewrite Hlog2. apply in_or_app. left. apply in_or_app. right. now left.
    + right. now exists d, n.
Qed.

Lemma selfHeal_only_appends_actions_witness :
  let config :=
    mkConfig (Some [("bug", ["bug"])]) None
             (Some (mkSelfHealing (Some true) (Some true) (Some true))) None
             (Some [("bug", mkMilestoneRule "Bugfix Sprint")]) in
  let c := IssueClassifier.classifyIssue config (labels_of ScenarioA.issue) in
  exists c' final,
    fst (selfHeal ScenarioA.all_succeed config "acme" "widgets"
                  ScenarioA.issue c []) = inr (c', final) /\
    track c' = track c /\ violations c' = violations c.
Proof.
  intros config c. eexists; eexists. split; [vm_compute; reflexivity|].
  destruct (selfHeal_only_appends_actions
              ScenarioA.all_succeed config "acme" "widgets" ScenarioA.issue c
              (mkClassification (Some "bug") (Some "track:bug") []
                 ["apply-track-label:track:bug"; "set-milestone:Bugfix Sprint"])
              (Some "Bugfix Sprint") [] eq_refl)
    as (Ht & _ & Hv & _).
  split; [exact Ht | exact Hv].
Defined.

(** The complete repair.  With self-healing and both fixes enabled, a label
    to apply, a milestone rule whose title differs from the issue's current
    milestone, and every request succeeding, self-healing sends the label
    request, the milestone lookup, a creation only if no open milestone has
    the title, and the attachment of the found or created number; it
    records the label action, then the milestone action, and the final
    milestone title is the desired one. *)
Theorem selfHeal_repairs_label_and_milestone
    (w : World) (config : TaskAssistantConfig) (o r : string) (issue : Issue)
    (c : IssueClassification) (label d : string)
    (ms : list MilestoneData) (n : Z) (log : list Call) :
  enabled (selfHealing_of config) = Some true ->
  fixMissingTrack (selfHealing_of config) = Some true ->
  fixMissingMilestone (selfHealing_of config) = Some true ->
  trackLabelToApply c = Some label -> label <> "" ->
  MilestoneRules.inferMilestoneTitle config (track c) = Some d -> d <> "" ->
  current_milestone_title issue <> Some d ->
  addLabels_response w o r (number issue) [label] = inr tt ->
  listMilestones_response w o r = inr ms ->
  (MilestoneManager.first_with_title ms d = Some n \/
   (MilestoneManager.first_with_title ms d = None /\
    createMilestone_response w o r d = inr n)) ->
  update_response w o r (number issue) n = inr tt ->
  selfHeal w config o r issue c log
  = (inr (mkClassification
            (track c) (trackLabelToApply c) (violations c)
            (actions c ++ [("apply-track-label:" ++ label)%string;
                           ("set-milestone:" ++ d)%string])%list,
          Some d),
     (log ++ [AddLabels o r (number issue) [label];
              ListMilestones o r "open"]
          ++ (match MilestoneManager.first_with_title ms d with
              | Some _ => []
              | None => [CreateMilestone o r d]
              end)
          ++ [UpdateIssue o r (number issue) n])%list).
Proof.
  intros He Ht Hm Hl Hlne Hd Hdne Hcur Hadd Hlist Hn Hupd.
  apply truthy_nonempty in Hlne. apply truthy_nonempty in Hdne.
  assert (HA : fix_track_label w config o r issue c log
               = (inr (push_action c ("apply-track-label:" ++ label)),
                  (log ++ [AddLabels o r (number issue) [label]])%list)).
  { unfold fix_track_label. rewrite Hl, He, Ht, Hlne.
    unfold bind, request, ret. cbn [truthy_flag andb]. now rewrite Hadd. }
  assert (E : opt_string_eqb (Some d) (current_milestone_title issue) = false).
  { destruct (current_milestone_title issue) as [cur|]; simpl; [|reflexivity].
    apply String.eqb_neq. intros ->. now apply Hcur. }
  assert (HB : forall c1 log1, track c1 = track c ->
             enforce_milestone w config o r issue c1 log1
             = (inr (push_action c1 ("set-milestone:" ++ d), Some d),
                (log1 ++ [ListMilestones o r "open"]
                      ++ (match MilestoneManager.first_with_title ms d with
                          | Some _ => []
                          | None => [CreateMilestone o r d]
                          end)
                      ++ [UpdateIssue o r (number issue) n])%list)).
  { intros c1 log1 Htr. unfold enforce_milestone.
    rewrite He, Hm, Htr, Hd, Hdne, E. cbn [truthy_flag andb negb].
    cbv [MilestoneManager.ensureMilestone MilestoneManager.findMilestoneByTitle
         MilestoneManager.listMilestones MilestoneManager.attachMilestoneToIssue
         bind try_catch request ret throw MilestoneManager.owner
         MilestoneManager.repo].
    rewrite Hlist.
    destruct Hn as [Hf|[Hf Hc]]; rewrite Hf; [|rewrite Hc]; rewrite Hupd;
      cbn [app]; rewrite <- ?app_assoc; reflexivity. }
  unfold selfHeal, bind. rewrite HA, HB by reflexivity.
  unfold push_action. cbn [track trackLabelToApply violations actions].
  rewrite Hl, <- !app_assoc. reflexivity.
Qed.

Lemma selfHeal_repairs_label_and_milestone_witness :
  let config :=
    mkConfig (Some [("bug", ["bug"])]) None
             (Some (mkSelfHealing (Some true) (Some true) (Some true))) None
             (Some [("bug", mkMilestoneRule "Bugfix Sprint")]) in
  selfHeal ScenarioA.all_succeed config "acme" "widgets" ScenarioA.issue
           (IssueClassifier.classifyIssue config (labels_of ScenarioA.issue)) []
  = (inr (mkClassification
            (Some "bug") (Some "track:bug") []
            ["apply-track-label:track:bug"; "set-milestone:Bugfix Sprint"],
          Some "Bugfix Sprint"),
     [AddLabels "acme" "widgets" 42 ["track:bug"];
      ListMilestones "acme" "widgets" "open";
      CreateMilestone "acme" "widgets" "Bugfix Sprint";
      UpdateIssue "acme" "widgets" 42 7]).
Proof.
  intros config.
  apply (selfHeal_repairs_label_and_milestone
           ScenarioA.all_succeed config "acme" "widgets" ScenarioA.issue
           (IssueClassifier.classifyIssue config (labels_of ScenarioA.issue))
           "track:bug" "Bugfix Sprint" [] 7%Z []);
    try reflexivity; try discriminate.
  right. split; reflexivity.
Defined.

(** When no milestone is desired (no rule for the track, or a rule with an
    empty title), or the desired milestone is the one the issue already
    has, self-healing leaves milestones alone, whatever milestone the issue
    has: it sends at most the label request, records at most the label
    action, and returns the issue's current milestone title. *)
Theorem selfHeal_keeps_matching_milestone
    (w : World) (config : TaskAssistantConfig) (o r : string) (issue : Issue)
    (c : IssueClassification) (log : list Call) :
  MilestoneRules.inferMilestoneTitle config (track c) = None \/
  MilestoneRules.inferMilestoneTitle config (track c) = Some "" \/
  MilestoneRules.inferMilestoneTitle config (track c)
    = current_milestone_title issue ->
  (snd (selfHeal w config o r issue c log) = log \/
   exists label,
     snd (selfHeal w config o r issue c log)
     = (log ++ [AddLabels o r (number issue) [label]])%list) /\
  (forall c' final,
      fst (selfHeal w config o r issue c log) = inr (c', final) ->
      final = current_milestone_title issue /\
      (c' = c \/
       exists label,
         trackLabelToApply c = Some label /\
         c' = push_action c ("apply-track-label:" ++ label))).
Proof.
  intros Hsame.
  assert (Hen : forall c1 log1, track c1 = track c ->
             enforce_milestone w config o r issue c1 log1
             = (inr (c1, current_milestone_title issue), log1)).
  { intros c1 log1 Ht. unfold enforce_milestone. rewrite Ht.
    destruct (_ && _)%bool; [|reflexivity].
    destruct Hsame as [-> | [-> | ->]]; [reflexivity | reflexivity |].
    destruct (current_milestone_title issue) as [cur|]; [|reflexivity].
    simpl. rewrite String.eqb_refl, andb_false_r. reflexivity. }
  unfold selfHeal, bind.
  pose proof (fix_track_label_result w config o r issue c log) as Hfix.
  pose proof (fix_track_label_extension w config o r issue c log)
    as (new & Hlog & _).
  destruct (fix_track_label w config o r issue c log) as [[err|c1] log1] eqn:E;
    simpl in *.
  - split; [|discriminate].
    revert E. unfold fix_track_label.
    destruct (trackLabelToApply c) as [label|]; [|discriminate].
    destruct (_ && _)%bool; [|discriminate].
    unfold bind, request, ret.
    destruct (addLabels_response w o r (number issue) [label]) as [e|[]];
      [|discriminate].
    intros [= <- <-]. right. now exists label.
  - destruct (Hfix c1 eq_refl) as [[-> ->]|(label & Hl & -> & -> & _)].
    + rewrite Hen by reflexivity. simpl. split; [now left|].
      intros c' final [= <- <-]. auto.
    + rewrite Hen by reflexivity. simpl. split; [right; now exists label|].
      intros c' final [= <- <-]. split; [reflexivity|].
      right. now exists label.
Qed.

Lemma selfHeal_keeps_matching_milestone_witness :
  let config :=
    mkConfig (Some [("bug", ["bug"])]) None
             (Some (mkSelfHealing (Some true) (Some true) (Some true))) None
             (Some [("docs", mkMilestoneRule "Docs")]) in
  let issue :=
    mkIssue 9001 42 "Crash on save" "open" (Some [LabelString "Bug"])
            (Some (mkIssueMilestone "Backlog")) "" "" in
  let healed :=
    selfHeal ScenarioA.all_succeed config "acme" "widgets" issue
             (IssueClassifier.classifyIssue config (labels_of issue)) [] in
  (snd healed = [] \/
   exists label, snd healed = [AddLabels "acme" "widgets" 42 [label]]) /\
  fst healed
  = inr (mkClassification (Some "bug") (Some "track:bug") []
                          ["apply-track-label:track:bug"],
         Some "Backlog").
Proof.
  intros config issue healed.
  destruct (selfHeal_keeps_matching_milestone
              ScenarioA.all_succeed config "acme" "widgets" issue
              (IssueClassifier.classifyIssue config (labels_of issue)) []
              (or_introl eq_refl)) as [Hlog _].
  split; [exact Hlog | reflexivity].
Defined.

End RunCoverage.

(* ===================================================================== *)
(** * The environment *)
(* ===================================================================== *)

Section EnvFacts.
Import JsValue Env.

Variable JSON_parse : string -> option JSValue.
Variable process_env : string -> option string.

Lemma one_of_In (allowed : list string) (s : string) :
  one_of allowed s = true <-> In s allowed.
Proof.
  unfold one_of. rewrite existsb_exists. split.
  - intros (x & Hin & E). apply String.eqb_eq in E. now subst.
  - intros H. exists s. split; [exact H | apply String.eqb_refl].
Qed.

Lemma truthy_opt_some (v : option string) :
  JsString.truthy_opt v = true <-> exists s, v = Some s /\ s <> "".
Proof.
  destruct v as [s|]; simpl.
  - rewrite truthy_nonempty. split.
    + intros H. now exists s.
    + now intros (s' & [= <-] & H).
  - split; [discriminate | intros (s & H & _); discriminate].
Qed.

(** A variable is acceptable when it is unset, empty, or parses. *)
Lemma parse_variable_errors (name : string) (errors : list string) :
  (snd (parse_variable JSON_parse process_env name errors) = errors /\
   forall raw, process_env name = Some raw -> raw <> "" ->
               JSON_parse raw <> None) \/
  (snd (parse_variable JSON_parse process_env name errors)
   = push errors (name ++ " is not valid JSON.") /\
   exists raw, process_env name = Some raw /\ raw <> "" /\
               JSON_parse raw = None).
Proof.
  unfold parse_variable.
  destruct (process_env name) as [raw|]; [|left; split; [reflexivity|discriminate]].
  destruct (JsString.truthy raw) eqn:T.
  - destruct (JSON_parse raw) as [v|] eqn:P.
    + left. split; [reflexivity|]. intros raw' [= <-] _. congruence.
    + right. split; [reflexivity|]. exists raw.
      apply truthy_nonempty in T. auto.
  - left. split; [reflexivity|]. intros raw' [= <-] Hne.
    apply truthy_nonempty in Hne. congruence.
Qed.

Lemma push_not_nil (errors : list string) (e : string) : push errors e <> [].
Proof. unfold push. destruct errors; discriminate. Qed.

Lemma push_cons_not_nil (errors : list string) (e x : string) :
  exists y l, push errors e = y :: l.
Proof. unfold push. destruct errors; simpl; eauto. Qed.

Lemma parse_variable_fst (name : string) (errors : list string) :
  fst (parse_variable JSON_parse process_env name errors)
  = fst (parse_variable JSON_parse process_env name []).
Proof.
  unfold parse_variable. destruct (process_env name) as [raw|]; [|reflexivity].
  destruct (JsString.truthy raw); [|reflexivity].
  now destruct (JSON_parse raw).
Qed.

(** Either every rule holds and [loadEnv] returns the environment read, or
    some rule is broken and it throws. *)
Lemma loadEnv_cases :
  let mode := or_default (process_env "TASK_ASSISTANT_RUN_MODE") "action" in
  let node := or_default (process_env "NODE_ENV") "production" in
  let rules_hold :=
    In mode ["action"; "app"; "local"] /\
    (mode = "action" ->
     exists token, process_env "GITHUB_TOKEN" = Some token /\ token <> "") /\
    (forall raw, process_env "TASK_ASSISTANT_TRACK_CONFIG" = Some raw ->
                 raw <> "" -> JSON_parse raw <> None) /\
    (forall raw, process_env "TASK_ASSISTANT_MILESTONE_RULES" = Some raw ->
                 raw <> "" -> JSON_parse raw <> None) /\
    In node ["production"; "development"; "test"] in
  (rules_hold /\
   loadEnv JSON_parse process_env
   = inr (mkEnv (process_env "GITHUB_TOKEN") mode
                (String.eqb
                   (JsString.toLowerCase
                      (or_default
                         (process_env "TASK_ASSISTANT_TELEMETRY_ENABLED")
                         "true")) "true")
                (or_default (process_env "TASK_ASSISTANT_TELEMETRY_ROOT")
                            "telemetry")
                (fst (parse_variable JSON_parse process_env
                                     "TASK_ASSISTANT_TRACK_CONFIG" []))
                (fst (parse_variable JSON_parse process_env
                                     "TASK_ASSISTANT_MILESTONE_RULES" []))
                node)) \/
  (~ rules_hold /\ exists message, loadEnv JSON_parse process_env = inl message).
Proof.
  intros mode node rules_hold. subst rules_hold. unfold loadEnv.
  fold mode. fold node.
  rewrite <- (one_of_In _ mode), <- (one_of_In _ node).
  rewrite <- truthy_opt_some.
  set (errors1 := if negb (one_of ["action"; "app"; "local"] mode)
                  then push [] _ else []).
  set (errors2 := if (String.eqb mode "action"
                      && negb (JsString.truthy_opt (process_env "GITHUB_TOKEN")))%bool
                  then push errors1 _ else errors1).
  pose proof (parse_variable_errors "TASK_ASSISTANT_TRACK_CONFIG" errors2) as H3.
  pose proof (parse_variable_fst "TASK_ASSISTANT_TRACK_CONFIG" errors2) as F3.
  destruct (parse_variable JSON_parse process_env
                           "TASK_ASSISTANT_TRACK_CONFIG" errors2)
    as [track errors3]. simpl in H3, F3.
  pose proof (parse_variable_errors "TASK_ASSISTANT_MILESTONE_RULES" errors3)
    as H4.
  pose proof (parse_variable_fst "TASK_ASSISTANT_MILESTONE_RULES" errors3) as F4.
  destruct (parse_variable JSON_parse process_env
                           "TASK_ASSISTANT_MILESTONE_RULES" errors3)
    as [rules errors4]. simpl in H4, F4.
  set (errors5 := if negb (one_of ["production"; "development"; "test"] node)
                  then push errors4 _ else errors4).
  assert (E1 : errors1 = [] <-> one_of ["action"; "app"; "local"] mode = true).
  { subst errors1. destruct (one_of _ mode); simpl;
      split; try reflexivity; try discriminate;
      intros H; now apply push_not_nil in H. }
  assert (E2 : errors2 = [] <->
               errors1 = [] /\
               (mode = "action" ->
                JsString.truthy_opt (process_env "GITHUB_TOKEN") = true)).
  { subst errors2. destruct (String.eqb mode "action") eqn:A;
      destruct (JsString.truthy_opt _); simpl.
    - tauto.
    - split; [intros H; now apply push_not_nil in H|].
      intros [_ H]. apply String.eqb_eq in A. specialize (H A). discriminate.
    - apply String.eqb_neq in A. tauto.
    - apply String.eqb_neq in A. tauto. }
  assert (E3 : errors3 = [] <->
               errors2 = [] /\
               forall raw, process_env "TASK_ASSISTANT_TRACK_CONFIG" = Some raw ->
                           raw <> "" -> JSON_parse raw <> None).
  { destruct H3 as [[-> Hok]|[-> (raw & Hr & Hne & Hp)]].
    - tauto.
    - split; [intros H; now apply push_not_nil in H|].
      intros [_ H]. exfalso. exact (H raw Hr Hne Hp). }
  assert (E4 : errors4 = [] <->
               errors3 = [] /\
               forall raw,
                 process_env "TASK_ASSISTANT_MILESTONE_RULES" = Some raw ->
                 raw <> "" -> JSON_parse raw <> None).
  { destruct H4 as [[-> Hok]|[-> (raw & Hr & Hne & Hp)]].
    - tauto.
    - split; [intros H; now apply push_not_nil in H|].
      intros [_ H]. exfalso. exact (H raw Hr Hne Hp). }
  assert (E5 : errors5 = [] <->
               errors4 = [] /\
               one_of ["production"; "development"; "test"] node = true).
  { subst errors5. destruct (one_of _ node); simpl.
    - tauto.
    - split; [intros H; now apply push_not_nil in H|].
      intros [_ H]. discriminate. }
  fold errors5. clearbody errors1 errors2 errors5. subst track rules.
  destruct errors5 as [|e rest].
  - left. split; [tauto | reflexivity].
  - right. split; [|eexists; reflexivity].
    intros H. assert (e :: rest = []) as C by tauto. discriminate.
Qed.

(** [loadEnv] succeeds exactly when the run mode is one of the three
    allowed, a non-empty token is present if the mode is ["action"] (the
    default), each of the two JSON variables is unset, empty or parses, and
    [NODE_ENV] is one of the three allowed (default ["production"]); the
    token is not required in the other modes. *)
Theorem loadEnv_succeeds_iff :
  (exists env, loadEnv JSON_parse process_env = inr env) <->
  (In (or_default (process_env "TASK_ASSISTANT_RUN_MODE") "action")
      ["action"; "app"; "local"] /\
   (or_default (process_env "TASK_ASSISTANT_RUN_MODE") "action" = "action" ->
    exists token, process_env "GITHUB_TOKEN" = Some token /\ token <> "") /\
   (forall raw, process_env "TASK_ASSISTANT_TRACK_CONFIG" = Some raw ->
                raw <> "" -> JSON_parse raw <> None) /\
   (forall raw, process_env "TASK_ASSISTANT_MILESTONE_RULES" = Some raw ->
                raw <> "" -> JSON_parse raw <> None) /\
   In (or_default (process_env "NODE_ENV") "production")
      ["production"; "development"; "test"]).
Proof.
  destruct loadEnv_cases as [[Hrules ->]|[Hbroken [message ->]]].
  - split; [intros _; exact Hrules | intros _; eexists; reflexivity].
  - split; [intros [env H]; discriminate | intros H; contradiction].
Qed.

(** The environment [loadEnv] returns is always a valid one: its run mode
    and [NODE_ENV] are among the allowed values, it holds a non-empty token
    in ["action"] mode, telemetry is enabled exactly when the variable is
    unset or spells [true] in any letter case (so an empty value disables
    it), and a JSON configuration it holds is what [JSON.parse] made of the
    variable. *)
Theorem loadEnv_result_is_valid (env : TaskAssistantEnv) :
  loadEnv JSON_parse process_env = inr env ->
  In (TASK_ASSISTANT_RUN_MODE env) ["action"; "app"; "local"] /\
  In (NODE_ENV env) ["production"; "development"; "test"] /\
  (TASK_ASSISTANT_RUN_MODE env = "action" ->
   exists token, GITHUB_TOKEN env = Some token /\ token <> "") /\
  (TASK_ASSISTANT_TELEMETRY_ENABLED env = true <->
   process_env "TASK_ASSISTANT_TELEMETRY_ENABLED" = None \/
   exists v, process_env "TASK_ASSISTANT_TELEMETRY_ENABLED" = Some v /\
             JsString.toLowerCase v = "true") /\
  (forall value,
      TASK_ASSISTANT_TRACK_CONFIG env = Some value ->
      exists raw, process_env "TASK_ASSISTANT_TRACK_CONFIG" = Some raw /\
                  JSON_parse raw = Some value) /\
  (forall value,
      TASK_ASSISTANT_MILESTONE_RULES env = Some value ->
      exists raw, process_env "TASK_ASSISTANT_MILESTONE_RULES" = Some raw /\
                  JSON_parse raw = Some value).
Proof.
  assert (Hparse : forall name value,
             fst (parse_variable JSON_parse process_env name []) = Some value ->
             exists raw, process_env name = Some raw /\
                         JSON_parse raw = Some value).
  { intros name value. unfold parse_variable.
    destruct (process_env name) as [raw|]; [|discriminate].
    destruct (JsString.truthy raw); [|discriminate].
    destruct (JSON_parse raw) as [v|] eqn:P; [|discriminate].
    intros [= <-]. now exists raw. }
  destruct loadEnv_cases as [[Hrules ->]|[_ [message ->]]]; [|discriminate].
  intros [= <-]. simpl.
  destruct Hrules as (Hmode & Htoken & _ & _ & Hnode).
  repeat split; auto.
  - rewrite String.eqb_eq.
    destruct (process_env "TASK_ASSISTANT_TELEMETRY_ENABLED") as [v|]; simpl;
      [|now left].
    intros H. right. now exists v.
  - rewrite String.eqb_eq. intros [H|(v & -> & H)]; [now rewrite H | exact H].
Qed.

End EnvFacts.

Section EnvCacheFacts.
Import JsValue Env.

Lemma loadEnv_result_is_valid_witness :
  let variables := fun name =>
    if String.eqb name "GITHUB_TOKEN" then Some "ghp_x"
    else if String.eqb name "TASK_ASSISTANT_TELEMETRY_ENABLED"
         then Some "TRUE" else None in
  let env := mkEnv (Some "ghp_x") "action" true "telemetry" None None
                   "production" in
  loadEnv (fun _ => None) variables = inr env /\
  In (TASK_ASSISTANT_RUN_MODE env) ["action"; "app"; "local"] /\
  exists v, variables "TASK_ASSISTANT_TELEMETRY_ENABLED" = Some v /\
            JsString.toLowerCase v = "true".
Proof.
  intros variables env. split; [reflexivity|].
  destruct (loadEnv_result_is_valid (fun _ => None) variables env eq_refl)
    as (Hmode & _ & _ & Htel & _).
  split; [exact Hmode|].
  destruct (proj1 Htel eq_refl) as [H|H]; [discriminate H | exact H].
Defined.

(** [getEnv] validates the environment until it succeeds once, and then
    serves the environment it cached: a success fills the cache and every
    later call returns the same value without looking at the variables
    again, whatever they have become; a failure leaves the cache empty, so
    the next call validates afresh. *)
Theorem getEnv_caches_first_success
    (JSON_parse : string -> option JSValue)
    (process_env : string -> option string)
    (cachedEnv : option TaskAssistantEnv) :
  (forall env cache',
      getEnv JSON_parse process_env cachedEnv = (inr env, cache') ->
      cache' = Some env /\
      forall JSON_parse' process_env',
        getEnv JSON_parse' process_env' cache' = (inr env, cache')) /\
  (forall message cache',
      getEnv JSON_parse process_env cachedEnv = (inl message, cache') ->
      cachedEnv = None /\ cache' = None /\
      loadEnv JSON_parse process_env = inl message).
Proof.
  unfold getEnv. destruct cachedEnv as [cached|].
  - split.
    + intros env cache' [= <- <-]. auto.
    + intros message cache' H. discriminate.
  - destruct (loadEnv JSON_parse process_env) as [message|env]; split.
    + intros env cache' H. discriminate.
    + intros m cache' [= <- <-]. auto.
    + intros e cache' [= <- <-]. auto.
    + intros m cache' H. discriminate.
Qed.

End EnvCacheFacts.
